(** * ResvgQt.h: the Qt wrapper of the resvg C API, as a shallow embedding

    The header [capi/include/ResvgQt.h] wraps an opaque render tree of the
    SVG engine and draws it on a [QPainter].  The engine (resvg.h) and the
    toolkit (Qt) are collaborators: the engine's entry points and the
    process environment of the toolkit are interfaces ([ResvgApi],
    [QtHost]); what the header itself computes is translated function by
    function.  Doubles are IEEE binary64 values ([PrimFloat.float]). *)

From Stdlib Require Import ZArith Bool List String Ascii Floats Uint63 Lia.
Import ListNotations.
Local Open Scope Z_scope.

(** ** C values *)

(** Integer part of a double, toward zero; 0 for NaN and the infinities. *)
Definition trunc_Z (x : float) : Z :=
  match Prim2SF x with
  | S754_finite s m e =>
      let mag := if 0 <=? e then Z.shiftl (Zpos m) e else Z.shiftr (Zpos m) (- e) in
      if s then - mag else mag
  | _ => 0
  end.

(** [(uint)x] for a double [x]: truncation toward zero.  C++ defines the
    conversion when the truncated value fits 32 bits; where it does not, the
    model takes the truncated value modulo 2^32. *)
Definition uint_of_double (x : float) : Z := trunc_Z x mod 2 ^ 32.

(** [int(x)] for a double [x]: truncation toward zero.  C++ defines the
    conversion when the truncated value fits a 32-bit [int]; where it does
    not, the model takes the truncated value modulo 2^32, in the signed
    range. *)
Definition int_of_double (x : float) : Z :=
  (trunc_Z x + 2 ^ 31) mod 2 ^ 32 - 2 ^ 31.

(** [int] to [double] (exact for 32-bit integers). *)
Definition double_of_int (z : Z) : float :=
  if z <? 0 then PrimFloat.opp (PrimFloat.of_uint63 (Uint63.of_Z (- z)))
  else PrimFloat.of_uint63 (Uint63.of_Z z).

(** The C string a [const char *] denotes: the bytes before the first NUL.
    [QString::toUtf8().constData()] and [qstrdup] hand such strings on; a
    [QString] is represented by its UTF-8 bytes. *)
Fixpoint c_str (s : string) : string :=
  match s with
  | EmptyString => EmptyString
  | String c rest => if Ascii.eqb c Ascii.zero then EmptyString else String c (c_str rest)
  end.

Definition qstrdup (s : string) : string := c_str s.

Definition QByteArray := list Byte.byte.

(** ** Toolkit values (Qt) *)

Module Qt.

(** [QRectF]: x, y, width, height as doubles; [QRectF()] is all zero. *)
Record QRectF := mkQRectF {
  qr_x : float; qr_y : float; qr_width : float; qr_height : float
}.

Definition QRectF_null : QRectF := mkQRectF 0 0 0 0.

(** [QRectF::isValid]: [w > 0. && h > 0.] *)
Definition QRectF_isValid (r : QRectF) : bool :=
  ((0 <? qr_width r) && (0 <? qr_height r))%float.

(** [QRect] with its integer position and extent. *)
Record QRect := mkQRect { rx : Z; ry : Z; rw : Z; rh : Z }.

(** The converting constructor [QRectF(const QRect &)]. *)
Definition QRectF_of_QRect (r : QRect) : QRectF :=
  mkQRectF (double_of_int (rx r)) (double_of_int (ry r))
           (double_of_int (rw r)) (double_of_int (rh r)).

Record QSizeF := mkQSizeF { wd : float; ht : float }.
Record QSize := mkQSize { iwd : Z; iht : Z }.

Definition QRectF_size (r : QRectF) : QSizeF :=
  mkQSizeF (qr_width r) (qr_height r).

(** [QSizeF()] (toolkit): the default-constructed size is the invalid size,
    width and height -1. *)
Definition QSizeF_default : QSizeF := mkQSizeF (-1) (-1).

(** [qRound(double)] (toolkit, Qt 5, which the header is written for):
    [d >= 0.0 ? int(d + 0.5)
              : int(d - double(int(d-1)) + 0.5) + int(d-1)]. *)
Definition qRound (v : float) : Z :=
  if (0 <=? v)%float then int_of_double (v + 0.5)
  else int_of_double (v - double_of_int (int_of_double (v - 1)) + 0.5)
       + int_of_double (v - 1).

(** [QSizeF::toSize] (toolkit): [QSize(qRound(wd), qRound(ht))], the size
    rounded to the nearest integers. *)
Definition QSizeF_toSize (s : QSizeF) : QSize :=
  mkQSize (qRound (wd s)) (qRound (ht s)).

(** [QTransform(m11, m12, m21, m22, dx, dy)]: the affine part. *)
Record QTransform := mkQTransform {
  m11 : float; m12 : float; m21 : float; m22 : float; dx : float; dy : float
}.

Definition QTransform_identity : QTransform := mkQTransform 1 0 0 1 0 0.

(** A screen as [initOptions] reads it. *)
Record QScreen := mkQScreen {
  logicalDotsPerInch : float;
  devicePixelRatio : float
}.

(** [QPainter::RenderHint] flags. *)
Definition Antialiasing : Z := 1.
Definition TextAntialiasing : Z := 2.
Definition SmoothPixmapTransform : Z := 4.

(** What [QPainter::save] pushes and [QPainter::restore] pops: the world
    transform, the clip region (a list of rectangles) and the hint flags. *)
Record QPainterState := mkPainterState {
  worldTransform : QTransform;
  clipRegion : list QRect;
  renderHints : Z
}.

Record QPainter := mkPainter {
  state : QPainterState;
  saved : list QPainterState;
  viewport : QRect
}.

Definition save (p : QPainter) : QPainter :=
  mkPainter (state p) (state p :: saved p) (viewport p).

(** An unbalanced [restore] only warns and leaves the painter as it is. *)
Definition restore (p : QPainter) : QPainter :=
  match saved p with
  | [] => p
  | s :: rest => mkPainter s rest (viewport p)
  end.

Definition setRenderHint (hint : Z) (on : bool) (p : QPainter) : QPainter :=
  let st := state p in
  let hints := if on then Z.lor (renderHints st) hint
               else Z.ldiff (renderHints st) hint in
  mkPainter (mkPainterState (worldTransform st) (clipRegion st) hints)
            (saved p) (viewport p).

(** [QPainter::setTransform(t, combine)]; [mul] is the toolkit's
    [QTransform::operator*]. *)
Definition setTransform (mul : QTransform -> QTransform -> QTransform)
    (t : QTransform) (combine : bool) (p : QPainter) : QPainter :=
  let st := state p in
  let t' := if combine then mul t (worldTransform st) else t in
  mkPainter (mkPainterState t' (clipRegion st) (renderHints st))
            (saved p) (viewport p).

End Qt.
Import Qt.

(** ** The engine's C API (resvg.h) *)

(** The declared error codes. *)
Inductive resvg_error :=
| RESVG_OK
| RESVG_ERROR_NOT_AN_UTF8_STR
| RESVG_ERROR_FILE_OPEN_FAILED
| RESVG_ERROR_FILE_WRITE_FAILED
| RESVG_ERROR_INVALID_FILE_SUFFIX
| RESVG_ERROR_MALFORMED_GZIP
| RESVG_ERROR_PARSING_FAILED
| RESVG_ERROR_NO_CANVAS.

(** [resvg_render_tree *]: an opaque, non-null handle. *)
Definition resvg_render_tree : Type := positive.

(** Modelled from the spec: [resvg_options] (declared in resvg.h), with the
    base path (null or an owned C string) and the DPI. *)
Record resvg_options := mkOptions { path : option string; dpi : float }.

Record resvg_rect := mkRect {
  rect_x : float; rect_y : float; rect_width : float; rect_height : float
}.

Record resvg_size := mkSize { size_width : Z; size_height : Z }.

Record resvg_transform := mkTransform {
  ts_a : float; ts_b : float; ts_c : float; ts_d : float; ts_e : float;
  ts_f : float
}.

(** What a parse entry point hands back: the returned [int] and the tree it
    stored through the out-pointer, if it stored one. *)
Record parse_result := mkParse { err : Z; out_tree : option resvg_render_tree }.

Class ResvgApi := {
  (** the integer value of each enumerator *)
  resvg_error_value : resvg_error -> Z;
  (** the DPI [resvg_init_options] stores *)
  resvg_default_dpi : float;
  resvg_parse_tree_from_file : string -> resvg_options -> parse_result;
  resvg_parse_tree_from_data : QByteArray -> resvg_options -> parse_result;
  resvg_get_image_viewbox : resvg_render_tree -> resvg_rect;
  resvg_is_image_empty : resvg_render_tree -> bool;
  resvg_node_exists : resvg_render_tree -> string -> bool;
  (** [true] with the rectangle stored through the out-pointer, or [false] *)
  resvg_qt_get_node_bbox :
    resvg_render_tree -> resvg_options -> string -> option resvg_rect;
  resvg_get_node_transform :
    resvg_render_tree -> string -> option resvg_transform;
  resvg_qt_render_to_canvas :
    resvg_render_tree -> resvg_options -> resvg_size -> QPainter -> QPainter;
  resvg_qt_render_to_canvas_by_id :
    resvg_render_tree -> resvg_options -> resvg_size -> string ->
    QPainter -> QPainter
}.

(** Modelled from the spec: [resvg_init_options] (resvg.h) rewrites the whole
    record with the engine defaults, the base path being null. *)
Definition resvg_init_options {E : ResvgApi} (opt : resvg_options) : resvg_options :=
  mkOptions None resvg_default_dpi.

(** The process environment the header reads through the toolkit. *)
Class QtHost := {
  (** [qApp->screens()] *)
  screens : list QScreen;
  (** [QFile(path).open(QFile::ReadOnly)] followed by [readAll()], [None]
      when the file cannot be opened *)
  QFile_readAll : string -> option QByteArray;
  (** [QTransform::operator*] *)
  QTransform_mul : QTransform -> QTransform -> QTransform
}.

(** ** Observable effects *)

(** The calls that release a resource, write a diagnostic or draw. *)
Inductive Event :=
| EvTreeDestroy (t : resvg_render_tree)
| EvDeleteArray (p : string)
| EvWarning (msg : string)
| EvRenderToCanvas (t : resvg_render_tree) (o : resvg_options)
    (sz : resvg_size) (p : QPainter)
| EvRenderToCanvasById (t : resvg_render_tree) (o : resvg_options)
    (sz : resvg_size) (id : string) (p : QPainter).

(** ** namespace ResvgPrivate *)

Module ResvgPrivate.

(** [class Data]: the tree pointer (null or a handle), the options, the
    view box and the last error message. *)
Record Data := mkData {
  tree : option resvg_render_tree;
  opt : resvg_options;
  viewBox : QRectF;
  errMsg : string
}.

(** A renderer's private data together with the effects made so far. *)
Record State := mkState {
  d : Data;
  trace : list Event
}.

Definition emit (ev : Event) (s : State) : State :=
  mkState (d s) (trace s ++ [ev]).

Definition with_tree (t : option resvg_render_tree) (s : State) : State :=
  mkState (mkData t (opt (d s)) (viewBox (d s)) (errMsg (d s))) (trace s).

Definition with_opt (o : resvg_options) (s : State) : State :=
  mkState (mkData (tree (d s)) o (viewBox (d s)) (errMsg (d s))) (trace s).

Definition with_viewBox (v : QRectF) (s : State) : State :=
  mkState (mkData (tree (d s)) (opt (d s)) v (errMsg (d s))) (trace s).

Definition with_errMsg (m : string) (s : State) : State :=
  mkState (mkData (tree (d s)) (opt (d s)) (viewBox (d s)) m) (trace s).

Section Private.
Context {E : ResvgApi} {Q : QtHost}.

Definition initOptions (o : resvg_options) : resvg_options :=
  let o := resvg_init_options o in
  match screens with
  | [] => o
  | screen :: _ =>
      mkOptions (path o)
        (logicalDotsPerInch screen * devicePixelRatio screen)%float
  end.

(** [Data::Data()] *)
Definition Data_new : Data :=
  mkData None (resvg_init_options (mkOptions None 0%float)) QRectF_null
    EmptyString.

(** [Data::reset()] *)
Definition reset (s : State) : State :=
  let s :=
    match tree (d s) with
    | Some t => with_tree None (emit (EvTreeDestroy t) s)
    | None => s
    end in
  let s :=
    match path (opt (d s)) with
    | Some p =>
        with_opt (mkOptions None (dpi (opt (d s)))) (emit (EvDeleteArray p) s)
    | None => s
    end in
  let s := with_opt (initOptions (opt (d s))) s in
  let s := with_viewBox QRectF_null s in
  with_errMsg EmptyString s.

(** [errorToString]; [None] is [Q_UNREACHABLE()]. *)
Definition errorToString (err : Z) : option string :=
  if err =? resvg_error_value RESVG_OK then
    Some EmptyString
  else if err =? resvg_error_value RESVG_ERROR_NOT_AN_UTF8_STR then
    Some "The SVG content has not an UTF-8 encoding."%string
  else if err =? resvg_error_value RESVG_ERROR_FILE_OPEN_FAILED then
    Some "Failed to open the file."%string
  else if err =? resvg_error_value RESVG_ERROR_FILE_WRITE_FAILED then
    Some "Failed to write to the file."%string
  else if err =? resvg_error_value RESVG_ERROR_INVALID_FILE_SUFFIX then
    Some "Invalid file suffix."%string
  else if err =? resvg_error_value RESVG_ERROR_MALFORMED_GZIP then
    Some "Not a GZip compressed data."%string
  else if err =? resvg_error_value RESVG_ERROR_PARSING_FAILED then
    Some "Failed to parse an SVG data."%string
  else if err =? resvg_error_value RESVG_ERROR_NO_CANVAS then
    Some "Failed to allocate the canvas."%string
  else None.

End Private.
End ResvgPrivate.
Import ResvgPrivate.

(** ** class ResvgRenderer *)

Section Renderer.
Context {E : ResvgApi} {Q : QtHost}.

(** [ResvgRenderer::ResvgRenderer()] *)
Definition ResvgRenderer_new : State := mkState Data_new [].

(** The engine stores the parsed tree through [&d->tree]. *)
Definition store_tree (res : parse_result) (s : State) : State :=
  match out_tree res with
  | Some t => with_tree (Some t) s
  | None => s
  end.

(** The part the two loaders share after the parse call: the error branch
    and the view box.  [None] is a run that leaves defined behaviour
    ([Q_UNREACHABLE], or a null tree handed to the engine). *)
Definition finish_load (res : parse_result) (s : State) : option (bool * State) :=
  if negb (err res =? resvg_error_value RESVG_OK) then
    match errorToString (err res) with
    | Some msg => Some (false, with_errMsg msg s)
    | None => None
    end
  else
    match tree (d s) with
    | Some t =>
        let r := resvg_get_image_viewbox t in
        Some (true,
              with_viewBox
                (mkQRectF (rect_x r) (rect_y r) (rect_width r) (rect_height r)) s)
    | None => None
    end.

(** [ResvgRenderer::load(const QByteArray &)] *)
Definition load_data (s : State) (data : QByteArray) : option (bool * State) :=
  let s := reset s in
  let res := resvg_parse_tree_from_data data (opt (d s)) in
  finish_load res (store_tree res s).

(** [ResvgRenderer::load(const QString &)] *)
Definition load (s : State) (filePath : string) : option (bool * State) :=
  if String.prefix ":/" filePath then
    match QFile_readAll filePath with
    | Some bytes => load_data s bytes
    | None => Some (false, s)
    end
  else
    let s := reset s in
    let rawFilePath := c_str filePath in
    let s := with_opt (mkOptions (Some (qstrdup rawFilePath)) (dpi (opt (d s)))) s in
    let res := resvg_parse_tree_from_file rawFilePath (opt (d s)) in
    finish_load res (store_tree res s).

Definition isValid (s : State) : bool :=
  match tree (d s) with Some _ => true | None => false end.

Definition errorString (s : State) : string := errMsg (d s).

Definition isEmpty (s : State) : bool :=
  match tree (d s) with
  | Some t => negb (resvg_is_image_empty t)
  | None => true
  end.

Definition defaultSizeF (s : State) : QSizeF :=
  match tree (d s) with
  | Some _ => QRectF_size (viewBox (d s))
  | None => QSizeF_default
  end.

Definition defaultSize (s : State) : QSize := QSizeF_toSize (defaultSizeF s).

Definition viewBoxF (s : State) : QRectF :=
  match tree (d s) with
  | Some _ => viewBox (d s)
  | None => QRectF_null
  end.

Definition boundsOnElement (s : State) (id : string) : QRectF :=
  match tree (d s) with
  | None => QRectF_null
  | Some t =>
      let rawId := c_str id in
      match resvg_qt_get_node_bbox t (opt (d s)) rawId with
      | Some bbox =>
          mkQRectF (rect_x bbox) (rect_y bbox) (rect_height bbox) (rect_width bbox)
      | None => QRectF_null
      end
  end.

Definition elementExists (s : State) (id : string) : bool :=
  match tree (d s) with
  | None => false
  | Some t => resvg_node_exists t (c_str id)
  end.

Definition transformForElement (s : State) (id : string) : QTransform :=
  match tree (d s) with
  | None => QTransform_identity
  | Some t =>
      match resvg_get_node_transform t (c_str id) with
      | Some ts =>
          mkQTransform (ts_a ts) (ts_b ts) (ts_c ts) (ts_d ts) (ts_e ts) (ts_f ts)
      | None => QTransform_identity
      end
  end.

(** [ResvgRenderer::render(QPainter *, const QRectF &)] *)
Definition render_bounds (s : State) (p : QPainter) (bounds : QRectF)
  : State * QPainter :=
  match tree (d s) with
  | None => (s, p)
  | Some t =>
      let r := if QRectF_isValid bounds then bounds
               else QRectF_of_QRect (viewport p) in
      let p := save p in
      let p := setRenderHint Antialiasing true p in
      let sx := (qr_width r / qr_width (viewBox (d s)))%float in
      let sy := (qr_height r / qr_height (viewBox (d s)))%float in
      let p := setTransform QTransform_mul
                 (mkQTransform sx 0 0 sy (qr_x r) (qr_y r)) true p in
      let imgSize := mkSize (uint_of_double (qr_width (viewBox (d s))))
                            (uint_of_double (qr_height (viewBox (d s)))) in
      let s := emit (EvRenderToCanvas t (opt (d s)) imgSize p) s in
      let p := resvg_qt_render_to_canvas t (opt (d s)) imgSize p in
      (s, restore p)
  end.

(** [ResvgRenderer::render(QPainter *p)] *)
Definition render (s : State) (p : QPainter) : State * QPainter :=
  render_bounds s p QRectF_null.

(** The text streamed to [qWarning()] for an element without a box. *)
Definition no_bbox_warning (elementId : string) : string :=
  ("Element '" ++ elementId ++ "' has no bounding box.")%string.

(** [ResvgRenderer::render(QPainter *, const QString &, const QRectF &)] *)
Definition render_element (s : State) (p : QPainter) (elementId : string)
    (bounds : QRectF) : State * QPainter :=
  match tree (d s) with
  | None => (s, p)
  | Some t =>
      let rawId := c_str elementId in
      match resvg_qt_get_node_bbox t (opt (d s)) rawId with
      | None => (emit (EvWarning (no_bbox_warning elementId)) s, p)
      | Some bbox =>
          let p := save p in
          let p := setRenderHint Antialiasing true p in
          let r := if QRectF_isValid bounds then bounds
                   else QRectF_of_QRect (viewport p) in
          let sx := (qr_width r / rect_width bbox)%float in
          let sy := (qr_height r / rect_height bbox)%float in
          let p := setTransform QTransform_mul
                     (mkQTransform sx 0 0 sy (qr_x bounds) (qr_y bounds)) true p in
          let imgSize := mkSize (uint_of_double (rect_width bbox))
                                (uint_of_double (rect_height bbox)) in
          let s := emit (EvRenderToCanvasById t (opt (d s)) imgSize rawId p) s in
          let p := resvg_qt_render_to_canvas_by_id t (opt (d s)) imgSize rawId p in
          (s, restore p)
      end
  end.

End Renderer.

(** [Data::~Data()], run when the renderer is destroyed. *)
Definition ResvgRenderer_delete {E : ResvgApi} {Q : QtHost} (s : State) : State :=
  reset s.

(** ** What the specification says, as definitions of its own *)

(** The message table of the error translator, row by row. *)
Definition fixed_message (code : resvg_error) : string :=
  match code with
  | RESVG_OK => ""
  | RESVG_ERROR_NOT_AN_UTF8_STR => "The SVG content has not an UTF-8 encoding."
  | RESVG_ERROR_FILE_OPEN_FAILED => "Failed to open the file."
  | RESVG_ERROR_FILE_WRITE_FAILED => "Failed to write to the file."
  | RESVG_ERROR_INVALID_FILE_SUFFIX => "Invalid file suffix."
  | RESVG_ERROR_MALFORMED_GZIP => "Not a GZip compressed data."
  | RESVG_ERROR_PARSING_FAILED => "Failed to parse an SVG data."
  | RESVG_ERROR_NO_CANVAS => "Failed to allocate the canvas."
  end%string.

(** ** Contracts of the engine *)

(** The enumerators are distinct integers (they label one [switch]). *)
Definition distinct_error_values (E : ResvgApi) : Prop :=
  forall e1 e2, resvg_error_value e1 = resvg_error_value e2 -> e1 = e2.

(** A parse that does not return [RESVG_OK] stores no tree. *)
Definition failed_parse_stores_no_tree (E : ResvgApi) : Prop :=
  (forall p o, err (resvg_parse_tree_from_file p o) <> resvg_error_value RESVG_OK ->
               out_tree (resvg_parse_tree_from_file p o) = None) /\
  (forall b o, err (resvg_parse_tree_from_data b o) <> resvg_error_value RESVG_OK ->
               out_tree (resvg_parse_tree_from_data b o) = None).

(** The engine leaves the painter's stack of saved states as it found it. *)
Definition render_keeps_saved_states (E : ResvgApi) : Prop :=
  (forall t o sz p, saved (resvg_qt_render_to_canvas t o sz p) = saved p) /\
  (forall t o sz id p,
     saved (resvg_qt_render_to_canvas_by_id t o sz id p) = saved p).

(** ** Sequences of public calls *)

Inductive Call :=
| CallLoad (filePath : string)
| CallLoadData (data : QByteArray)
| CallRender (p : QPainter) (bounds : QRectF)
| CallRenderElement (p : QPainter) (elementId : string) (bounds : QRectF).

Definition call {E : ResvgApi} {Q : QtHost} (s : State) (c : Call) : option State :=
  match c with
  | CallLoad filePath => option_map snd (load s filePath)
  | CallLoadData data => option_map snd (load_data s data)
  | CallRender p bounds => Some (fst (render_bounds s p bounds))
  | CallRenderElement p id bounds => Some (fst (render_element s p id bounds))
  end.

Fixpoint run {E : ResvgApi} {Q : QtHost} (s : State) (calls : list Call) : option State :=
  match calls with
  | [] => Some s
  | c :: rest =>
      match call s c with
      | Some s' => run s' rest
      | None => None
      end
  end.

(** Where the options were last rewritten from: nothing yet, a load that
    went through bytes, or a load of a file-system path. *)
Inductive Origin :=
| Fresh
| FromBytes
| FromPath (rawFilePath : string).

Definition next_origin {Q : QtHost} (o : Origin) (c : Call) : Origin :=
  match c with
  | CallLoad filePath =>
      if String.prefix ":/" filePath then
        match QFile_readAll filePath with
        | Some _ => FromBytes
        | None => o
        end
      else FromPath (c_str filePath)
  | CallLoadData _ => FromBytes
  | CallRender _ _ | CallRenderElement _ _ _ => o
  end.

Definition origin_after {Q : QtHost} (calls : list Call) : Origin :=
  fold_left next_origin calls Fresh.

(** Whether a load gets as far as the reset and the parse. *)
Definition reaches_parse {Q : QtHost} (c : Call) : bool :=
  match c with
  | CallLoad filePath =>
      if String.prefix ":/" filePath then
        match QFile_readAll filePath with Some _ => true | None => false end
      else true
  | CallLoadData _ => true
  | _ => false
  end.

(** The result of a load, for the two loaders at once. *)
Definition load_call {E : ResvgApi} {Q : QtHost} (s : State) (c : Call)
  : option (bool * State) :=
  match c with
  | CallLoad filePath => load s filePath
  | CallLoadData data => load_data s data
  | _ => None
  end.

(** ** Notions the properties are stated with *)

(** A string without a NUL byte (it is then its own C string). *)
Fixpoint nul_free (s : string) : bool :=
  match s with
  | EmptyString => true
  | String ch rest => negb (Ascii.eqb ch Ascii.zero) && nul_free rest
  end.

(** The options every reset leaves behind: the engine defaults, with the DPI
    of the first screen when there is one. *)
Definition reset_options {E : ResvgApi} {Q : QtHost} : resvg_options :=
  mkOptions None
    match screens with
    | [] => resvg_default_dpi
    | screen :: _ => (logicalDotsPerInch screen * devicePixelRatio screen)%float
    end.

(** What a reset releases: the owned tree, then the duplicated path. *)
Definition released (s : State) : list Event :=
  match tree (d s) with Some t => [EvTreeDestroy t] | None => [] end ++
  match path (opt (d s)) with Some p => [EvDeleteArray p] | None => [] end.

(** The base path the options hold when they were last rewritten from [o]. *)
Definition path_of_origin (o : Origin) : option string :=
  match o with
  | FromPath rawFilePath => Some rawFilePath
  | Fresh | FromBytes => None
  end.

(** The invariant: the base path is the one of the origin, and a renderer
    that was never loaded owns no tree. *)
Definition path_invariant (s : State) (o : Origin) : Prop :=
  path (opt (d s)) = path_of_origin o /\
  (o = Fresh -> tree (d s) = None).

(** The rectangle the scale is taken from. *)
Definition target_rect (bounds : QRectF) (p : QPainter) : QRectF :=
  if QRectF_isValid bounds then bounds else QRectF_of_QRect (viewport p).

(** The painter as the engine receives it: saved, antialiased, with [t]
    composed onto its transform. *)
Definition prepared {Q : QtHost} (t : QTransform) (p : QPainter) : QPainter :=
  setTransform QTransform_mul t true (setRenderHint Antialiasing true (save p)).

(** The transform of a draw by id. *)
Definition element_transform (bounds : QRectF) (p : QPainter)
    (bbox : resvg_rect) : QTransform :=
  let r := target_rect bounds p in
  mkQTransform (qr_width r / rect_width bbox) 0 0
               (qr_height r / rect_height bbox)
               (qr_x bounds) (qr_y bounds).

(** The three things a draw call must give back: the transform, the clip
    region and the render hints. *)
Definition same_graphics_state (p q : QPainter) : Prop :=
  worldTransform (state q) = worldTransform (state p) /\
  clipRegion (state q) = clipRegion (state p) /\
  renderHints (state q) = renderHints (state p).

(** ** A small engine and host to run the definitions on *)

Module Sample.

Definition value (code : resvg_error) : Z :=
  match code with
  | RESVG_OK => 0
  | RESVG_ERROR_NOT_AN_UTF8_STR => 1
  | RESVG_ERROR_FILE_OPEN_FAILED => 2
  | RESVG_ERROR_FILE_WRITE_FAILED => 3
  | RESVG_ERROR_INVALID_FILE_SUFFIX => 4
  | RESVG_ERROR_MALFORMED_GZIP => 5
  | RESVG_ERROR_PARSING_FAILED => 6
  | RESVG_ERROR_NO_CANVAS => 7
  end.

(** One file, ["/a.svg"], parses to tree 1; any non-empty byte array parses
    to tree 2; the rest fails. *)
Definition parse_file (p : string) (o : resvg_options) : parse_result :=
  if String.eqb p "/a.svg" then mkParse 0 (Some 1%positive)
  else mkParse 2 None.

Definition parse_data (b : QByteArray) (o : resvg_options) : parse_result :=
  match b with
  | [] => mkParse 6 None
  | _ :: _ => mkParse 0 (Some 2%positive)
  end.

Definition image_viewbox (t : resvg_render_tree) : resvg_rect :=
  match t with
  | 1%positive => mkRect 0 0 200 100
  | _ => mkRect 0 0 10 10
  end.

(** Element ["foo"] has the box (10, 20, 30, 40). *)
Definition node_bbox (t : resvg_render_tree) (o : resvg_options) (id : string)
  : option resvg_rect :=
  if String.eqb id "foo" then Some (mkRect 10 20 30 40) else None.

(** The engine paints with a transform and hints of its own and leaves
    them set. *)
Definition paint (p : QPainter) : QPainter :=
  mkPainter (mkPainterState (mkQTransform 3 0 0 3 7 7) [] 7) (saved p)
            (viewport p).

Definition engine : ResvgApi := {|
  resvg_error_value := value;
  resvg_default_dpi := 96;
  resvg_parse_tree_from_file := parse_file;
  resvg_parse_tree_from_data := parse_data;
  resvg_get_image_viewbox := image_viewbox;
  resvg_is_image_empty := fun t => Pos.eqb t 1;
  resvg_node_exists := fun _ id => String.eqb id "foo";
  resvg_qt_get_node_bbox := node_bbox;
  resvg_get_node_transform := fun _ _ => None;
  resvg_qt_render_to_canvas := fun _ _ _ p => paint p;
  resvg_qt_render_to_canvas_by_id := fun _ _ _ _ p => paint p
|}.

(** The product of two affine maps, [t] applied first. *)
Definition affine_mul (t u : QTransform) : QTransform :=
  mkQTransform
    (m11 t * m11 u + m12 t * m21 u) (m11 t * m12 u + m12 t * m22 u)
    (m21 t * m11 u + m22 t * m21 u) (m21 t * m12 u + m22 t * m22 u)
    (dx t * m11 u + dy t * m21 u + dx u)
    (dx t * m12 u + dy t * m22 u + dy u)%float.

(** One screen at 96 DPI with pixel ratio 2; one resource, [":/i.svg"]. *)
Definition host : QtHost := {|
  screens := [mkQScreen 96 2];
  QFile_readAll := fun p =>
    if String.eqb p ":/i.svg" then Some [Byte.x3c; Byte.x73] else None;
  QTransform_mul := affine_mul
|}.

Definition painter : QPainter :=
  mkPainter (mkPainterState (mkQTransform 1 0 0 1 5 5) [mkQRect 0 0 50 50] 2)
            [] (mkQRect 0 0 400 200).

(** A renderer that owns the tree of ["/a.svg"]. *)
Definition loaded : State :=
  mkState (mkData (Some 1%positive) (mkOptions (Some "/a.svg"%string) 192)
                  (mkQRectF 0 0 200 100) EmptyString) [].

(** What a failed load of ["/b.svg"] makes of [loaded]. *)
Definition failed : State :=
  mkState (mkData None (mkOptions (Some "/b.svg"%string) 192) QRectF_null
                  "Failed to open the file.")
          [EvTreeDestroy 1%positive; EvDeleteArray "/a.svg"].

End Sample.

(** An engine like the sample one whose documents have the view box
    (0, 0, 200.75, 100.5). *)
Module Fractional.

Definition engine : ResvgApi := {|
  resvg_error_value := Sample.value;
  resvg_default_dpi := 96;
  resvg_parse_tree_from_file := Sample.parse_file;
  resvg_parse_tree_from_data := Sample.parse_data;
  resvg_get_image_viewbox := fun _ => mkRect 0 0 200.75 100.5;
  resvg_is_image_empty := fun t => Pos.eqb t 1;
  resvg_node_exists := fun _ id => String.eqb id "foo";
  resvg_qt_get_node_bbox := Sample.node_bbox;
  resvg_get_node_transform := fun _ _ => None;
  resvg_qt_render_to_canvas := fun _ _ _ p => Sample.paint p;
  resvg_qt_render_to_canvas_by_id := fun _ _ _ _ p => Sample.paint p
|}.

(** What loading a byte array makes of a new renderer there. *)
Definition loaded : State :=
  mkState (mkData (Some 2%positive) (mkOptions None 192)
                  (mkQRectF 0 0 200.75 100.5) EmptyString) [].

End Fractional.

(** ** Constructors that load *)

(** [ResvgRenderer::ResvgRenderer(const QString &)]: a new renderer, then
    [load(filePath)] with its result dropped. *)
Definition ResvgRenderer_of_filePath {E : ResvgApi} {Q : QtHost}
    (filePath : string) : option State :=
  option_map snd (load ResvgRenderer_new filePath).

(** [ResvgRenderer::ResvgRenderer(const QByteArray &)] *)
Definition ResvgRenderer_of_data {E : ResvgApi} {Q : QtHost}
    (data : QByteArray) : option State :=
  option_map snd (load_data ResvgRenderer_new data).

(** ** Resources along a trace *)

Definition olist {A : Type} (o : option A) : list A :=
  match o with Some v => [v] | None => [] end.

(** The trees handed to [resvg_tree_destroy], in order. *)
Definition destroyed (tr : list Event) : list resvg_render_tree :=
  flat_map (fun ev => match ev with EvTreeDestroy t => [t] | _ => [] end) tr.

(** The paths handed to [delete[]], in order. *)
Definition deleted (tr : list Event) : list string :=
  flat_map (fun ev => match ev with EvDeleteArray p => [p] | _ => [] end) tr.

(** What the engine answers to the parse a load makes, when the load makes
    one: the options it is given are those of the reset, with the duplicated
    path for a file-system load. *)
Definition engine_answer {E : ResvgApi} {Q : QtHost} (c : Call)
  : option parse_result :=
  match c with
  | CallLoad filePath =>
      if String.prefix ":/" filePath then
        match QFile_readAll filePath with
        | Some data => Some (resvg_parse_tree_from_data data reset_options)
        | None => None
        end
      else
        Some (resvg_parse_tree_from_file (c_str filePath)
                (mkOptions (Some (c_str filePath)) (dpi reset_options)))
  | CallLoadData data => Some (resvg_parse_tree_from_data data reset_options)
  | CallRender _ _ | CallRenderElement _ _ _ => None
  end.

(** The tree a call makes the engine store, if any. *)
Definition stored_tree {E : ResvgApi} {Q : QtHost} (c : Call)
  : list resvg_render_tree :=
  match engine_answer c with
  | Some res => olist (out_tree res)
  | None => []
  end.

(** The path a call duplicates with [qstrdup], if any. *)
Definition duplicated_path (c : Call) : option string :=
  match c with
  | CallLoad filePath =>
      if String.prefix ":/" filePath then None else Some (c_str filePath)
  | _ => None
  end.

Definition is_draw (c : Call) : bool :=
  match c with
  | CallRender _ _ | CallRenderElement _ _ _ => true
  | CallLoad _ | CallLoadData _ => false
  end.

(** [QRectF(r.x, r.y, r.width, r.height)] *)
Definition QRectF_of_rect (r : resvg_rect) : QRectF :=
  mkQRectF (rect_x r) (rect_y r) (rect_width r) (rect_height r).

(** The transform of a whole-document draw. *)
Definition document_transform (bounds : QRectF) (p : QPainter)
    (vb : QRectF) : QTransform :=
  let r := target_rect bounds p in
  mkQTransform (qr_width r / qr_width vb) 0 0 (qr_height r / qr_height vb)
               (qr_x r) (qr_y r).

(** The result of a load and the private data it leaves. *)
Definition outcome (r : option (bool * State)) : option (bool * Data) :=
  option_map (fun r => (fst r, d (snd r))) r.

(** ** What a sequence of calls keeps true *)

(** The options by origin: the engine defaults of the constructor until a
    load resets them, the reset's DPI with the origin's path after. *)
Definition options_of_origin {E : ResvgApi} {Q : QtHost} (o : Origin)
  : resvg_options :=
  match o with
  | Fresh => mkOptions None resvg_default_dpi
  | FromBytes | FromPath _ => mkOptions (path_of_origin o) (dpi reset_options)
  end.

(** The document, the view box and the message fit together: a renderer
    never loaded holds the constructor's data; after a load either a tree is
    owned, with its view box and no message, or none is, with the zero view
    box and a message. *)
Definition document_settled {E : ResvgApi} {Q : QtHost} (s : State)
    (o : Origin) : Prop :=
  match o with
  | Fresh => d s = Data_new
  | FromBytes | FromPath _ =>
      match tree (d s) with
      | Some t =>
          errMsg (d s) = EmptyString /\
          viewBox (d s) = QRectF_of_rect (resvg_get_image_viewbox t)
      | None =>
          errMsg (d s) <> EmptyString /\ viewBox (d s) = QRectF_null
      end
  end.

(** * Properties *)

(** ** C strings *)

Lemma c_str_idempotent (s : string) : c_str (c_str s) = c_str s.
Proof.
  induction s as [| ch rest IH]; simpl; [reflexivity |].
  destruct (Ascii.eqb ch Ascii.zero) eqn:Hz; simpl; [reflexivity |].
  rewrite Hz, IH. reflexivity.
Qed.

Lemma c_str_nul_free (s : string) : nul_free s = true -> c_str s = s.
Proof.
  induction s as [| ch rest IH]; simpl; [reflexivity |].
  destruct (Ascii.eqb ch Ascii.zero); simpl; [discriminate |].
  intros Hrest. rewrite IH by exact Hrest. reflexivity.
Qed.

Lemma qstrdup_c_str (s : string) : qstrdup (c_str s) = c_str s.
Proof. apply c_str_idempotent. Qed.

(** ** Reset *)

Section ResetFacts.
Context {E : ResvgApi} {Q : QtHost}.

Lemma initOptions_const (o : resvg_options) : initOptions o = reset_options.
Proof.
  unfold initOptions, reset_options, resvg_init_options.
  destruct screens; reflexivity.
Qed.

Lemma reset_unfold (s : State) :
  reset s =
  mkState (mkData None reset_options QRectF_null EmptyString)
          (trace s ++ released s).
Proof.
  destruct s as [[t o v m] tr]. destruct o as [pth dp].
  unfold reset, released, with_errMsg, with_viewBox, with_opt, with_tree, emit.
  destruct t as [t |], pth as [pth |]; simpl;
    rewrite ?initOptions_const, ?app_nil_r, <- ?app_assoc; reflexivity.
Qed.

Lemma reset_tree (s : State) : tree (d (reset s)) = None.
Proof. rewrite reset_unfold. reflexivity. Qed.

Lemma reset_path (s : State) : path (opt (d (reset s))) = None.
Proof. rewrite reset_unfold. reflexivity. Qed.

Lemma released_reset (s : State) : released (reset s) = [].
Proof. rewrite reset_unfold. reflexivity. Qed.

End ResetFacts.

(** C9.  Reset is idempotent: a reset leaves no document, a null base path,
    the engine's default options with the DPI of the first screen (when
    there is one), the zero view box and the empty message; a second reset
    right after it changes nothing, and it destroys no tree and deletes no
    path (the trace of releases stays as the first reset left it). *)
Theorem reset_idempotent `{E : ResvgApi} `{Q : QtHost} (s : State) :
  reset (reset s) = reset s /\
  d (reset s) = mkData None reset_options QRectF_null EmptyString /\
  trace (reset s) = trace s ++ released s /\
  trace (reset (reset s)) = trace (reset s).
Proof.
  assert (Hidem : reset (reset s) = reset s).
  { rewrite (reset_unfold (reset s)), released_reset, app_nil_r.
    rewrite reset_unfold. reflexivity. }
  repeat split.
  - exact Hidem.
  - rewrite reset_unfold. reflexivity.
  - rewrite reset_unfold. reflexivity.
  - rewrite Hidem. reflexivity.
Qed.

(** ** Queries *)

Section QueryFacts.
Context {E : ResvgApi} {Q : QtHost}.

Lemma boundsOnElement_no_document (s : State) (id : string) :
  tree (d s) = None -> boundsOnElement s id = QRectF_null.
Proof. unfold boundsOnElement. intros ->. reflexivity. Qed.

Lemma boundsOnElement_no_box (s : State) (id : string) (t : resvg_render_tree) :
  tree (d s) = Some t ->
  resvg_qt_get_node_bbox t (opt (d s)) (c_str id) = None ->
  boundsOnElement s id = QRectF_null.
Proof. unfold boundsOnElement. intros -> ->. reflexivity. Qed.

(** With a box the rectangle is built from it with the extent exchanged:
    the box's height is the width of the result. *)
Lemma boundsOnElement_box (s : State) (id : string) (t : resvg_render_tree)
    (bbox : resvg_rect) :
  tree (d s) = Some t ->
  resvg_qt_get_node_bbox t (opt (d s)) (c_str id) = Some bbox ->
  boundsOnElement s id =
  mkQRectF (rect_x bbox) (rect_y bbox) (rect_height bbox) (rect_width bbox).
Proof. unfold boundsOnElement. intros -> ->. reflexivity. Qed.

Lemma isEmpty_owned (s : State) (t : resvg_render_tree) :
  tree (d s) = Some t -> isEmpty s = negb (resvg_is_image_empty t).
Proof. unfold isEmpty. intros ->. reflexivity. Qed.

End QueryFacts.

(** Two doubles that a comparison tells apart are different. *)
Lemma float_neq_by_ltb (u v : float) : PrimFloat.ltb u v = true -> u <> v.
Proof.
  intros Hlt Heq. subst v.
  rewrite FloatAxioms.ltb_spec in Hlt.
  destruct (Prim2SF u) as [sg | sg | | sg m ex]; try discriminate.
  - destruct sg; discriminate.
  - unfold SFltb, SFcompare in Hlt.
    rewrite Z.compare_refl, Pos.compare_cont_refl in Hlt.
    destruct sg; discriminate.
Qed.

(** C1.  The code at a renderer that owns a document whose element "foo"
    has the engine box (x, y, width, height) = (10, 20, 30, 40):
    [boundsOnElement] answers (10, 20, 40, 30), the width and the height
    exchanged, and not the engine's rectangle. *)
Theorem boundsOnElement_exchanges_extent :
  resvg_qt_get_node_bbox (ResvgApi := Sample.engine) 1%positive
    (opt (d Sample.loaded)) (c_str "foo") = Some (mkRect 10 20 30 40) /\
  boundsOnElement (E := Sample.engine) Sample.loaded "foo" =
    mkQRectF 10 20 40 30 /\
  boundsOnElement (E := Sample.engine) Sample.loaded "foo" <>
    mkQRectF 10 20 30 40.
Proof.
  split; [reflexivity |]. split; [reflexivity |].
  intros Heq. apply (f_equal qr_width) in Heq.
  revert Heq. apply not_eq_sym, float_neq_by_ltb. reflexivity.
Qed.

(** C2, as the code has it.  [isEmpty] is true exactly when no document is
    owned or the engine's [resvg_is_image_empty] answers false for the owned
    tree: with a document the result is the negation of the engine's
    answer. *)
Theorem isEmpty_negates_engine `{E : ResvgApi} (s : State) :
  (isEmpty s = true <->
   tree (d s) = None \/
   exists t, tree (d s) = Some t /\ resvg_is_image_empty t = false) /\
  (forall t, tree (d s) = Some t -> isEmpty s = negb (resvg_is_image_empty t)).
Proof.
  split.
  - unfold isEmpty. destruct (tree (d s)) as [t |] eqn:Ht.
    + split.
      * intros Hneg. right. exists t. split; [reflexivity |].
        apply negb_true_iff. exact Hneg.
      * intros [Hnone | [t' [Hsome Hfalse]]]; [discriminate |].
        injection Hsome as <-. rewrite Hfalse. reflexivity.
    + split; [intros _; left; reflexivity | reflexivity].
  - intros t Ht. apply isEmpty_owned. exact Ht.
Qed.

(** C2, as stated, fails: the renderer [Sample.loaded] owns tree 1, for which
    the engine's predicate answers true, and [isEmpty] is false there. *)
Lemma isEmpty_agrees_with_engine_fails :
  tree (d Sample.loaded) = Some 1%positive /\
  resvg_is_image_empty (ResvgApi := Sample.engine) 1%positive = true /\
  ~ (isEmpty (E := Sample.engine) Sample.loaded = true <->
     tree (d Sample.loaded) = None \/
     exists t, tree (d Sample.loaded) = Some t /\
               resvg_is_image_empty (ResvgApi := Sample.engine) t = true).
Proof.
  split; [reflexivity |]. split; [reflexivity |].
  intros [_ Hback].
  assert (Hempty : isEmpty (E := Sample.engine) Sample.loaded = true).
  { apply Hback. right. exists 1%positive. split; reflexivity. }
  discriminate Hempty.
Qed.

(** ** Truncation *)

Example trunc_Z_positive : trunc_Z 200.75 = 200.
Proof. reflexivity. Qed.

Example trunc_Z_negative : trunc_Z (-3.5) = -3.
Proof. reflexivity. Qed.

Example trunc_Z_below_one : trunc_Z 0.75 = 0.
Proof. reflexivity. Qed.

Lemma trunc_Z_zero : trunc_Z 0 = 0.
Proof. reflexivity. Qed.

(** ** Rounding *)

Example qRound_up : qRound 200.75 = 201.
Proof. reflexivity. Qed.

Example qRound_half : qRound 100.5 = 101.
Proof. reflexivity. Qed.

Example qRound_down : qRound 10.25 = 10.
Proof. reflexivity. Qed.

Example qRound_minus_one : qRound (-1) = -1.
Proof. reflexivity. Qed.

Example qRound_negative : qRound (-3.75) = -4.
Proof. reflexivity. Qed.

(** C7, as the code has it.  With a document, [defaultSizeF] is the view
    box's width and height and [defaultSize] is that pair passed through
    [toSize]: each component rounded to the nearest integer by [qRound],
    which for a non-negative value is the integer part of the value plus
    one half.  Without a document both are the default-constructed size,
    the invalid size (-1, -1). *)
Theorem defaultSize_rounds_viewBox (s : State) :
  match tree (d s) with
  | Some _ =>
      let vw := qr_width (viewBox (d s)) in
      let vh := qr_height (viewBox (d s)) in
      defaultSizeF s = mkQSizeF vw vh /\
      defaultSize s = mkQSize (qRound vw) (qRound vh) /\
      ((0 <=? vw)%float = true ->
         iwd (defaultSize s) = int_of_double (vw + 0.5)) /\
      ((0 <=? vh)%float = true ->
         iht (defaultSize s) = int_of_double (vh + 0.5))
  | None =>
      defaultSizeF s = mkQSizeF (-1) (-1) /\
      defaultSize s = mkQSize (-1) (-1)
  end.
Proof.
  unfold defaultSize, defaultSizeF.
  destruct (tree (d s)) as [t |].
  - cbv zeta. split; [reflexivity |]. split; [reflexivity |].
    unfold QSizeF_toSize, QRectF_size, qRound. simpl.
    split; intros ->; reflexivity.
  - split; reflexivity.
Qed.

Lemma defaultSize_rounds_viewBox_witness :
  tree (d Fractional.loaded) = Some 2%positive /\
  defaultSizeF Fractional.loaded = mkQSizeF 200.75 100.5 /\
  defaultSize Fractional.loaded = mkQSize 201 101 /\
  defaultSize Sample.loaded = mkQSize 200 100 /\
  defaultSize Sample.failed = mkQSize (-1) (-1).
Proof.
  split; [reflexivity |].
  destruct (defaultSize_rounds_viewBox Fractional.loaded) as (HsizeF & Hsize & _).
  split; [exact HsizeF |]. split; [exact Hsize |].
  destruct (defaultSize_rounds_viewBox Sample.loaded) as (_ & Hwhole & _).
  split; [exact Hwhole |].
  exact (proj2 (defaultSize_rounds_viewBox Sample.failed)).
Defined.

(** C7, as stated, fails twice.  A document with the view box
    (0, 0, 200.75, 100.5), as loading a byte array yields with the engine
    [Fractional.engine], has the default size (201, 101), not the truncated
    (200, 100); and a new renderer, which owns no document, has the default
    size (-1, -1), float and integer, not the zero size. *)
Lemma defaultSize_is_not_truncated :
  load_data (E := Fractional.engine) (Q := Sample.host)
    (ResvgRenderer_new (E := Fractional.engine)) [Byte.x3c]
    = Some (true, Fractional.loaded) /\
  defaultSizeF Fractional.loaded = mkQSizeF 200.75 100.5 /\
  mkQSize (trunc_Z 200.75) (trunc_Z 100.5) = mkQSize 200 100 /\
  defaultSize Fractional.loaded = mkQSize 201 101 /\
  defaultSize Fractional.loaded <> mkQSize (trunc_Z 200.75) (trunc_Z 100.5) /\
  tree (d (ResvgRenderer_new (E := Sample.engine))) = None /\
  defaultSizeF (ResvgRenderer_new (E := Sample.engine)) = mkQSizeF (-1) (-1) /\
  defaultSize (ResvgRenderer_new (E := Sample.engine)) = mkQSize (-1) (-1) /\
  defaultSize (ResvgRenderer_new (E := Sample.engine)) <> mkQSize 0 0.
Proof.
  repeat split; try reflexivity; intros Heq; discriminate Heq.
Qed.

(** ** Error translation *)

Section ErrorFacts.
Context {E : ResvgApi} {Q : QtHost}.
Hypothesis Hdistinct : distinct_error_values E.

Lemma value_eqb (e1 e2 : resvg_error) :
  e1 <> e2 -> (resvg_error_value e1 =? resvg_error_value e2) = false.
Proof.
  intros Hne. apply Z.eqb_neq. intros Heq. apply Hne, Hdistinct, Heq.
Qed.

(** On a declared code the translator reaches the row of the table. *)
Lemma errorToString_declared (code : resvg_error) :
  errorToString (resvg_error_value code) = Some (fixed_message code).
Proof.
  unfold errorToString.
  destruct code;
    repeat first
      [ rewrite Z.eqb_refl; reflexivity
      | rewrite value_eqb by discriminate ].
Qed.

(** Any other integer falls out of the [switch]. *)
Lemma errorToString_undeclared (c : Z) :
  (forall code, c <> resvg_error_value code) -> errorToString c = None.
Proof.
  intros Hout. unfold errorToString.
  repeat match goal with
         | |- context [c =? resvg_error_value ?k] =>
             replace (c =? resvg_error_value k) with false
               by (symmetry; apply Z.eqb_neq, Hout)
         end.
  reflexivity.
Qed.

(** The shared tail of the loaders on a failed parse. *)
Lemma finish_load_failed (res : parse_result) (s : State) (code : resvg_error) :
  code <> RESVG_OK ->
  err res = resvg_error_value code ->
  finish_load res s = Some (false, with_errMsg (fixed_message code) s).
Proof.
  intros Hcode Herr. unfold finish_load.
  rewrite Herr, (value_eqb code RESVG_OK Hcode). simpl.
  rewrite errorToString_declared. reflexivity.
Qed.

End ErrorFacts.

(** C6.  The translator is total on the declared codes and gives each its
    fixed message, the empty string for [RESVG_OK]; an integer outside the
    declared set reaches [Q_UNREACHABLE]; and a load whose parse returns a
    declared code other than [RESVG_OK] returns false with [errorString]
    equal to that code's message, whichever way the load was made (bytes, a
    file-system path, or a resource path that opens). *)
Theorem error_translation_total `{E : ResvgApi} `{Q : QtHost}
    (Hdistinct : distinct_error_values E) :
  (forall code, errorToString (resvg_error_value code) = Some (fixed_message code)) /\
  errorToString (resvg_error_value RESVG_OK) = Some EmptyString /\
  (forall c, (forall code, c <> resvg_error_value code) -> errorToString c = None) /\
  (forall s data code,
     code <> RESVG_OK ->
     err (resvg_parse_tree_from_data data reset_options) = resvg_error_value code ->
     exists s', load_data s data = Some (false, s') /\
                errorString s' = fixed_message code) /\
  (forall s filePath code,
     String.prefix ":/" filePath = false ->
     code <> RESVG_OK ->
     err (resvg_parse_tree_from_file (c_str filePath)
            (mkOptions (Some (c_str filePath)) (dpi reset_options)))
       = resvg_error_value code ->
     exists s', load s filePath = Some (false, s') /\
                errorString s' = fixed_message code) /\
  (forall s filePath data code,
     String.prefix ":/" filePath = true ->
     QFile_readAll filePath = Some data ->
     code <> RESVG_OK ->
     err (resvg_parse_tree_from_data data reset_options) = resvg_error_value code ->
     exists s', load s filePath = Some (false, s') /\
                errorString s' = fixed_message code).
Proof.
  assert (Hdata : forall s data code,
     code <> RESVG_OK ->
     err (resvg_parse_tree_from_data data reset_options) = resvg_error_value code ->
     exists s', load_data s data = Some (false, s') /\
                errorString s' = fixed_message code).
  { intros s data code Hcode Herr. unfold load_data.
    rewrite reset_unfold. cbn [d opt].
    eexists. split.
    - apply (finish_load_failed Hdistinct _ _ code Hcode Herr).
    - reflexivity. }
  split; [apply errorToString_declared, Hdistinct |].
  split; [apply (errorToString_declared Hdistinct RESVG_OK) |].
  split; [apply errorToString_undeclared |].
  split; [exact Hdata |].
  split.
  - intros s filePath code Hprefix Hcode Herr. unfold load.
    rewrite Hprefix, reset_unfold. cbn [d opt with_opt dpi].
    rewrite qstrdup_c_str.
    eexists. split.
    + apply (finish_load_failed Hdistinct _ _ code Hcode Herr).
    + reflexivity.
  - intros s filePath data code Hprefix Hopen Hcode Herr. unfold load.
    rewrite Hprefix, Hopen. apply Hdata; assumption.
Qed.

(** ** Loading *)

Section LoadFacts.
Context {E : ResvgApi} {Q : QtHost}.

Lemma store_tree_frame (res : parse_result) (s : State) :
  opt (d (store_tree res s)) = opt (d s) /\
  trace (store_tree res s) = trace s.
Proof. unfold store_tree. destruct (out_tree res); split; reflexivity. Qed.

Lemma store_tree_none (res : parse_result) (s : State) :
  out_tree res = None -> store_tree res s = s.
Proof. unfold store_tree. intros ->. reflexivity. Qed.

(** What the shared tail of the loaders leaves alone, and when it fails. *)
Lemma finish_load_inv (res : parse_result) (s s' : State) (ok : bool) :
  finish_load res s = Some (ok, s') ->
  opt (d s') = opt (d s) /\ trace s' = trace s /\ tree (d s') = tree (d s) /\
  (ok = false <-> err res <> resvg_error_value RESVG_OK).
Proof.
  unfold finish_load.
  destruct (err res =? resvg_error_value RESVG_OK) eqn:Hok; simpl.
  - apply Z.eqb_eq in Hok.
    destruct (tree (d s)) as [t |] eqn:Ht; [| discriminate].
    intros [= <- <-]. simpl. rewrite Ht.
    repeat split; try reflexivity; [discriminate | congruence].
  - apply Z.eqb_neq in Hok.
    destruct (errorToString (err res)) as [msg |]; [| discriminate].
    intros [= <- <-]. simpl. repeat split; try reflexivity. intros _. exact Hok.
Qed.

(** After a byte-array load, whatever its result, the base path is null and
    the trace has grown by what the reset released. *)
Lemma load_data_inv (s s' : State) (data : QByteArray) (ok : bool) :
  load_data s data = Some (ok, s') ->
  path (opt (d s')) = None /\ trace s' = trace s ++ released s.
Proof.
  unfold load_data. intros Hload.
  apply finish_load_inv in Hload as (Hopt & Htrace & _ & _).
  destruct (store_tree_frame
              (resvg_parse_tree_from_data data (opt (d (reset s)))) (reset s))
    as [Hopt' Htrace'].
  rewrite Hopt, Hopt', Htrace, Htrace', reset_unfold. split; reflexivity.
Qed.

(** After a load of a file-system path, whatever its result, the base path
    is the C string of that path. *)
Lemma load_path_inv (s s' : State) (filePath : string) (ok : bool) :
  String.prefix ":/" filePath = false ->
  load s filePath = Some (ok, s') ->
  path (opt (d s')) = Some (c_str filePath) /\
  trace s' = trace s ++ released s.
Proof.
  unfold load. intros -> Hload.
  apply finish_load_inv in Hload as (Hopt & Htrace & _ & _).
  rewrite Hopt, Htrace.
  match goal with
  | |- context [store_tree ?r ?st] =>
      destruct (store_tree_frame r st) as [Hopt' Htrace']
  end.
  rewrite Hopt', Htrace', reset_unfold. simpl. rewrite qstrdup_c_str.
  split; reflexivity.
Qed.

(** A load that reaches the parse and returns false owns no tree, given
    that a failed parse stores none. *)
Lemma load_data_failed (s s' : State) (data : QByteArray) :
  failed_parse_stores_no_tree E ->
  load_data s data = Some (false, s') -> tree (d s') = None.
Proof.
  intros [_ Hdata]. unfold load_data. intros Hload.
  apply finish_load_inv in Hload as (_ & _ & Htree & Hfail).
  rewrite Htree, store_tree_none; [apply reset_tree |].
  apply Hdata, Hfail. reflexivity.
Qed.

Lemma load_path_failed (s s' : State) (filePath : string) :
  failed_parse_stores_no_tree E ->
  String.prefix ":/" filePath = false ->
  load s filePath = Some (false, s') -> tree (d s') = None.
Proof.
  intros [Hfile _]. unfold load. intros -> Hload.
  apply finish_load_inv in Hload as (_ & _ & Htree & Hfail).
  rewrite Htree, store_tree_none; [rewrite reset_unfold; reflexivity |].
  apply Hfile, Hfail. reflexivity.
Qed.

(** A ":/" load whose resource does not open answers false at once. *)
Lemma load_unopened_resource (s : State) (filePath : string) :
  String.prefix ":/" filePath = true ->
  QFile_readAll filePath = None ->
  load s filePath = Some (false, s).
Proof. unfold load. intros -> ->. reflexivity. Qed.

(** A parse that returns [RESVG_OK] and stores a tree makes the load
    succeed: the tree is owned, the view box is the engine's, the message
    is empty. *)
Lemma load_data_success (s : State) (data : QByteArray) (t : resvg_render_tree) :
  let res := resvg_parse_tree_from_data data reset_options in
  err res = resvg_error_value RESVG_OK ->
  out_tree res = Some t ->
  exists s',
    load_data s data = Some (true, s') /\
    tree (d s') = Some t /\
    viewBoxF s' =
      (let r := resvg_get_image_viewbox t in
       mkQRectF (rect_x r) (rect_y r) (rect_width r) (rect_height r)) /\
    errorString s' = EmptyString.
Proof.
  intros res Hok Hstored. unfold load_data.
  rewrite reset_unfold. cbn [d opt]. fold res.
  unfold store_tree, finish_load. rewrite Hstored, Hok, Z.eqb_refl. simpl.
  eexists. split; [reflexivity |]. repeat split.
Qed.

(** With a document, the size of the view box is the default size. *)
Lemma viewBoxF_size (s : State) :
  isValid s = true -> QRectF_size (viewBoxF s) = defaultSizeF s.
Proof.
  unfold isValid, viewBoxF, defaultSizeF.
  destruct (tree (d s)); [reflexivity | discriminate].
Qed.

End LoadFacts.

(** C10.  A load of a ":/" path whose resource opens is the byte-array load
    of the bytes read from it, result and state alike; the base path is null
    after it. *)
Theorem resource_load_is_data_load `{E : ResvgApi} `{Q : QtHost}
    (s : State) (filePath : string) (data : QByteArray) :
  String.prefix ":/" filePath = true ->
  QFile_readAll filePath = Some data ->
  load s filePath = load_data s data /\
  (forall ok s', load s filePath = Some (ok, s') -> path (opt (d s')) = None).
Proof.
  intros Hprefix Hopen.
  assert (Heq : load s filePath = load_data s data).
  { unfold load. rewrite Hprefix, Hopen. reflexivity. }
  split; [exact Heq |].
  intros ok s' Hload. rewrite Heq in Hload.
  apply (load_data_inv s s' data ok Hload).
Qed.

Lemma resource_load_is_data_load_witness :
  String.prefix ":/" ":/i.svg" = true /\
  QFile_readAll (QtHost := Sample.host) ":/i.svg" = Some [Byte.x3c; Byte.x73] /\
  load (E := Sample.engine) (Q := Sample.host) Sample.loaded ":/i.svg" =
    load_data (E := Sample.engine) (Q := Sample.host) Sample.loaded
      [Byte.x3c; Byte.x73] /\
  exists s',
    load (E := Sample.engine) (Q := Sample.host) Sample.loaded ":/i.svg"
      = Some (true, s') /\
    path (opt (d s')) = None.
Proof.
  split; [reflexivity |]. split; [reflexivity |].
  destruct (resource_load_is_data_load (E := Sample.engine) (Q := Sample.host)
              Sample.loaded ":/i.svg" [Byte.x3c; Byte.x73] eq_refl eq_refl)
    as [Heq Hnull].
  split; [exact Heq |].
  eexists. split; [reflexivity |].
  eapply Hnull. reflexivity.
Defined.

(** C3, as the code has it.  A load that reaches the parse (a byte array, a
    file-system path, or a ":/" path whose resource opens) and returns false
    leaves the renderer empty: [isValid] is false and the reset has released
    what was owned, the previous tree included.  A ":/" load whose resource
    does not open returns false before any reset and leaves the state as it
    was. *)
Theorem failed_load_after_reset `{E : ResvgApi} `{Q : QtHost}
    (Hengine : failed_parse_stores_no_tree E)
    (s s' : State) (c : Call) :
  load_call s c = Some (false, s') ->
  if reaches_parse c then
    isValid s' = false /\
    trace s' = trace s ++ released s /\
    (forall t, tree (d s) = Some t -> In (EvTreeDestroy t) (trace s'))
  else s' = s.
Proof.
  assert (Hin : forall tr, trace s' = tr ++ released s ->
            forall t, tree (d s) = Some t -> In (EvTreeDestroy t) (trace s')).
  { intros tr -> t Ht. apply in_or_app. right.
    unfold released. rewrite Ht. left. reflexivity. }
  destruct c as [filePath | data | p bounds | p id bounds];
    simpl; try discriminate.
  - destruct (String.prefix ":/" filePath) eqn:Hprefix.
    + unfold load. rewrite Hprefix.
      destruct (QFile_readAll filePath) as [data |].
      * intros Hload.
        pose proof (load_data_failed s s' data Hengine Hload) as Htree.
        apply load_data_inv in Hload as [_ Htrace].
        unfold isValid. rewrite Htree. eauto.
      * intros [= <-]. reflexivity.
    + intros Hload.
      pose proof (load_path_failed s s' filePath Hengine Hprefix Hload) as Htree.
      apply load_path_inv in Hload as [_ Htrace]; [| exact Hprefix].
      unfold isValid. rewrite Htree. eauto.
  - intros Hload.
    pose proof (load_data_failed s s' data Hengine Hload) as Htree.
    apply load_data_inv in Hload as [_ Htrace].
    unfold isValid. rewrite Htree. eauto.
Qed.

Lemma sample_failed_parse_stores_no_tree :
  failed_parse_stores_no_tree Sample.engine.
Proof.
  split.
  - intros p o. simpl. unfold Sample.parse_file.
    destruct (String.eqb p "/a.svg"); simpl; [intros H; now elim H | reflexivity].
  - intros bytes o. simpl. unfold Sample.parse_data.
    destruct bytes; simpl; [reflexivity | intros H; now elim H].
Defined.

Lemma failed_load_after_reset_witness :
  failed_parse_stores_no_tree Sample.engine /\
  load_call (E := Sample.engine) (Q := Sample.host) Sample.loaded
    (CallLoad "/b.svg") = Some (false, Sample.failed) /\
  isValid Sample.failed = false /\
  trace Sample.failed = trace Sample.loaded ++ released Sample.loaded /\
  (forall t, tree (d Sample.loaded) = Some t ->
             In (EvTreeDestroy t) (trace Sample.failed)).
Proof.
  split; [exact sample_failed_parse_stores_no_tree |].
  split; [reflexivity |].
  exact (failed_load_after_reset (E := Sample.engine) (Q := Sample.host)
           sample_failed_parse_stores_no_tree Sample.loaded Sample.failed
           (CallLoad "/b.svg") eq_refl).
Defined.

(** C3, as stated, fails: the sample renderer owns the tree of "/a.svg"
    (it is what loading that file yields); a load of a ":/" path whose
    resource does not open returns false and the renderer is as before,
    still valid, with nothing destroyed. *)
Lemma failed_resource_load_keeps_document :
  load (E := Sample.engine) (Q := Sample.host)
    (ResvgRenderer_new (E := Sample.engine)) "/a.svg"
    = Some (true, Sample.loaded) /\
  load (E := Sample.engine) (Q := Sample.host) Sample.loaded ":/missing.svg"
    = Some (false, Sample.loaded) /\
  isValid Sample.loaded = true /\
  trace Sample.loaded = [].
Proof. repeat split; reflexivity. Qed.

(** ** The base path along a sequence of calls *)

Section PathFacts.
Context {E : ResvgApi} {Q : QtHost}.

(** Drawing reads the private data and never writes it. *)
Lemma render_bounds_data (s : State) (p : QPainter) (bounds : QRectF) :
  d (fst (render_bounds s p bounds)) = d s.
Proof. unfold render_bounds. destruct (tree (d s)); reflexivity. Qed.

Lemma render_element_data (s : State) (p : QPainter) (id : string)
    (bounds : QRectF) :
  d (fst (render_element s p id bounds)) = d s.
Proof.
  unfold render_element. destruct (tree (d s)) as [t |]; [| reflexivity].
  destruct (resvg_qt_get_node_bbox t (opt (d s)) (c_str id)); reflexivity.
Qed.

Lemma path_invariant_new : path_invariant ResvgRenderer_new Fresh.
Proof. split; reflexivity. Qed.

Lemma path_invariant_call (s s' : State) (o : Origin) (c : Call) :
  path_invariant s o -> call s c = Some s' ->
  path_invariant s' (next_origin o c).
Proof.
  intros [Hpath Hfresh].
  destruct c as [filePath | data | p bounds | p id bounds]; simpl.
  - destruct (load s filePath) as [[ok s1] |] eqn:Hload; [| discriminate].
    intros [= <-].
    destruct (String.prefix ":/" filePath) eqn:Hprefix.
    + unfold load in Hload. rewrite Hprefix in Hload.
      destruct (QFile_readAll filePath) as [data |].
      * apply load_data_inv in Hload as [Hnull _].
        split; [exact Hnull | discriminate].
      * injection Hload as <- <-. split; assumption.
    + apply load_path_inv in Hload as [Hset _]; [| exact Hprefix].
      split; [exact Hset | discriminate].
  - destruct (load_data s data) as [[ok s1] |] eqn:Hload; [| discriminate].
    intros [= <-]. apply load_data_inv in Hload as [Hnull _].
    split; [exact Hnull | discriminate].
  - intros [= <-]. unfold path_invariant.
    rewrite render_bounds_data. split; assumption.
  - intros [= <-]. unfold path_invariant.
    rewrite render_element_data. split; assumption.
Qed.

Lemma path_invariant_run (calls : list Call) :
  forall (s s' : State) (o : Origin),
    path_invariant s o -> run s calls = Some s' ->
    path_invariant s' (fold_left next_origin calls o).
Proof.
  induction calls as [| c rest IH]; intros s s' o Hinv; simpl.
  - intros [= <-]. exact Hinv.
  - destruct (call s c) as [s1 |] eqn:Hcall; [| discriminate].
    intros Hrun. apply (IH s1 s' (next_origin o c)); [| exact Hrun].
    apply (path_invariant_call s s1 o c Hinv Hcall).
Qed.

End PathFacts.

(** C8, as the code has it.  After any sequence of public calls on a new
    renderer, the base path is the one of the last load that reset the
    renderer: the UTF-8 C string of the path when that load was of a
    file-system path, whether its parse succeeded or failed, and null when
    it went through bytes (a byte-array load, or a ":/" load whose resource
    opened) or when there was no such load yet.  A renderer that owns a
    document has been loaded, so with a document the base path is non-null
    exactly when the document came from a file-system path. *)
Theorem base_path_of_last_reset `{E : ResvgApi} `{Q : QtHost}
    (calls : list Call) (s : State) :
  run ResvgRenderer_new calls = Some s ->
  path (opt (d s)) = path_of_origin (origin_after calls) /\
  (isValid s = true -> origin_after calls <> Fresh).
Proof.
  intros Hrun.
  destruct (path_invariant_run calls ResvgRenderer_new s Fresh
              path_invariant_new Hrun) as [Hpath Hfresh].
  split; [exact Hpath |].
  intros Hvalid Horigin. unfold isValid in Hvalid.
  rewrite (Hfresh Horigin) in Hvalid. discriminate.
Qed.

Lemma base_path_of_last_reset_witness :
  exists s,
    run (E := Sample.engine) (Q := Sample.host)
      (ResvgRenderer_new (E := Sample.engine))
      [CallLoad "/b.svg"; CallLoadData [Byte.x3c];
       CallRenderElement Sample.painter "foo" QRectF_null;
       CallLoad ":/missing.svg"; CallLoad "/a.svg"] = Some s /\
    path (opt (d s)) = Some "/a.svg"%string /\
    isValid s = true.
Proof.
  eexists. split; [reflexivity |].
  split; [| reflexivity].
  exact (proj1 (base_path_of_last_reset (E := Sample.engine) (Q := Sample.host)
                  [CallLoad "/b.svg"; CallLoadData [Byte.x3c];
                   CallRenderElement Sample.painter "foo" QRectF_null;
                   CallLoad ":/missing.svg"; CallLoad "/a.svg"] _ eq_refl)).
Defined.

(** C8, as stated, fails: after a failed load of the file-system path
    "/b.svg" on a new renderer no document is owned, and the base path is
    that path, not null. *)
Lemma base_path_after_failed_load :
  exists s',
    load (E := Sample.engine) (Q := Sample.host)
      (ResvgRenderer_new (E := Sample.engine)) "/b.svg" = Some (false, s') /\
    isValid s' = false /\
    path (opt (d s')) = Some "/b.svg"%string.
Proof. eexists. repeat split; reflexivity. Qed.

(** ** Drawing *)

Section DrawFacts.
Context {E : ResvgApi} {Q : QtHost}.

Lemma same_state_graphics (p q : QPainter) :
  state q = state p /\ saved q = saved p -> same_graphics_state p q.
Proof. intros [Hstate _]. unfold same_graphics_state. rewrite Hstate. repeat split. Qed.

Lemma prepared_saved (t : QTransform) (p : QPainter) :
  saved (prepared t p) = state p :: saved p.
Proof. reflexivity. Qed.

Lemma prepared_transform (t : QTransform) (p : QPainter) :
  worldTransform (state (prepared t p)) =
  QTransform_mul t (worldTransform (state p)).
Proof. reflexivity. Qed.

(** Restoring a painter whose stack is the one [prepared] left gives back
    the state and the stack from before. *)
Lemma restore_after (q p : QPainter) (t : QTransform) :
  saved q = saved (prepared t p) ->
  state (restore q) = state p /\ saved (restore q) = saved p.
Proof.
  rewrite prepared_saved. unfold restore. intros ->. split; reflexivity.
Qed.

Lemma render_element_unfold (s : State) (p : QPainter) (id : string)
    (bounds : QRectF) (t : resvg_render_tree) (bbox : resvg_rect) :
  tree (d s) = Some t ->
  resvg_qt_get_node_bbox t (opt (d s)) (c_str id) = Some bbox ->
  let imgSize := mkSize (uint_of_double (rect_width bbox))
                        (uint_of_double (rect_height bbox)) in
  let q := prepared (element_transform bounds p bbox) p in
  render_element s p id bounds =
  (emit (EvRenderToCanvasById t (opt (d s)) imgSize (c_str id) q) s,
   restore (resvg_qt_render_to_canvas_by_id t (opt (d s)) imgSize (c_str id) q)).
Proof. unfold render_element. intros -> ->. reflexivity. Qed.

Lemma render_bounds_unfold (s : State) (p : QPainter) (bounds : QRectF)
    (t : resvg_render_tree) :
  tree (d s) = Some t ->
  let r := target_rect bounds p in
  let vb := viewBox (d s) in
  let imgSize := mkSize (uint_of_double (qr_width vb))
                        (uint_of_double (qr_height vb)) in
  let q := prepared (mkQTransform (qr_width r / qr_width vb) 0 0
                                  (qr_height r / qr_height vb)
                                  (qr_x r) (qr_y r)) p in
  render_bounds s p bounds =
  (emit (EvRenderToCanvas t (opt (d s)) imgSize q) s,
   restore (resvg_qt_render_to_canvas t (opt (d s)) imgSize q)).
Proof. unfold render_bounds. intros ->. reflexivity. Qed.

End DrawFacts.

(** C4.  With a document owned, a draw by id whose bounding-box query fails
    adds exactly one warning to the trace and leaves the painter as it was
    (no engine call is made).  Otherwise the engine is called once, on the
    painter with the transform
    (r.width / bbox.width, 0, 0, r.height / bbox.height, bounds.x, bounds.y)
    composed onto the painter's own, [r] being [bounds] when that is valid
    and the viewport otherwise; the translation is the origin of the
    caller's [bounds], hence (0, 0) for the zero rectangle, where the scale
    is taken from the viewport. *)
Theorem render_element_transform `{E : ResvgApi} `{Q : QtHost}
    (s : State) (p : QPainter) (id : string) (bounds : QRectF)
    (t : resvg_render_tree) :
  tree (d s) = Some t ->
  match resvg_qt_get_node_bbox t (opt (d s)) (c_str id) with
  | None =>
      render_element s p id bounds = (emit (EvWarning (no_bbox_warning id)) s, p) /\
      trace (fst (render_element s p id bounds)) =
        trace s ++ [EvWarning (no_bbox_warning id)]
  | Some bbox =>
      let m := element_transform bounds p bbox in
      let q := prepared m p in
      let imgSize := mkSize (uint_of_double (rect_width bbox))
                            (uint_of_double (rect_height bbox)) in
      render_element s p id bounds =
        (emit (EvRenderToCanvasById t (opt (d s)) imgSize (c_str id) q) s,
         restore (resvg_qt_render_to_canvas_by_id t (opt (d s)) imgSize
                    (c_str id) q)) /\
      worldTransform (state q) = QTransform_mul m (worldTransform (state p)) /\
      (QRectF_isValid bounds = true ->
         m = mkQTransform (qr_width bounds / rect_width bbox) 0 0
                          (qr_height bounds / rect_height bbox)
                          (qr_x bounds) (qr_y bounds)) /\
      (bounds = QRectF_null ->
         m = mkQTransform
               (double_of_int (rw (viewport p)) / rect_width bbox) 0 0
               (double_of_int (rh (viewport p)) / rect_height bbox) 0 0)
  end.
Proof.
  intros Htree.
  destruct (resvg_qt_get_node_bbox t (opt (d s)) (c_str id)) as [bbox |] eqn:Hbox.
  - split; [apply (render_element_unfold s p id bounds t bbox Htree Hbox) |].
    split; [apply prepared_transform |].
    split.
    + intros Hvalid. unfold element_transform, target_rect.
      rewrite Hvalid. reflexivity.
    + intros ->. reflexivity.
  - assert (Hwarn : render_element s p id bounds
                    = (emit (EvWarning (no_bbox_warning id)) s, p)).
    { unfold render_element. rewrite Htree, Hbox. reflexivity. }
    split; [exact Hwarn |]. rewrite Hwarn. reflexivity.
Qed.

Lemma render_element_transform_witness :
  tree (d Sample.loaded) = Some 1%positive /\
  element_transform (mkQRectF 100 100 60 80) Sample.painter (mkRect 10 20 30 40)
    = mkQTransform 2 0 0 2 100 100 /\
  render_element (E := Sample.engine) (Q := Sample.host) Sample.loaded
    Sample.painter "foo" (mkQRectF 100 100 60 80) =
    (emit (EvRenderToCanvasById 1%positive (opt (d Sample.loaded))
             (mkSize 30 40) "foo"
             (prepared (Q := Sample.host) (mkQTransform 2 0 0 2 100 100)
                Sample.painter))
          Sample.loaded,
     Sample.painter).
Proof.
  split; [reflexivity |]. split; [reflexivity |].
  exact (proj1 (render_element_transform (E := Sample.engine) (Q := Sample.host)
                  Sample.loaded Sample.painter "foo" (mkQRectF 100 100 60 80)
                  1%positive eq_refl)).
Defined.

(** C5.  Whatever is drawn (the whole document or one element, with valid
    or zero bounds, with or without a bounding box for the element), the
    painter's transform, clip region and render hints after the call are
    those from before it, provided the engine leaves the painter's stack of
    saved states as it found it. *)
Theorem draw_keeps_painter_state `{E : ResvgApi} `{Q : QtHost}
    (Hengine : render_keeps_saved_states E)
    (s : State) (p : QPainter) (id : string) (bounds : QRectF) :
  same_graphics_state p (snd (render s p)) /\
  same_graphics_state p (snd (render_bounds s p bounds)) /\
  same_graphics_state p (snd (render_element s p id bounds)).
Proof.
  destruct Hengine as [Hwhole Hbyid].
  assert (Hbounds : forall b, same_graphics_state p (snd (render_bounds s p b))).
  { intros b. destruct (tree (d s)) as [t |] eqn:Htree.
    - rewrite (render_bounds_unfold s p b t Htree). cbv zeta. simpl snd.
      apply same_state_graphics.
      eapply restore_after. apply Hwhole.
    - unfold render_bounds. rewrite Htree. apply same_state_graphics.
      split; reflexivity. }
  split; [apply Hbounds |]. split; [apply Hbounds |].
  destruct (tree (d s)) as [t |] eqn:Htree.
  - destruct (resvg_qt_get_node_bbox t (opt (d s)) (c_str id)) as [bbox |] eqn:Hbox.
    + rewrite (render_element_unfold s p id bounds t bbox Htree Hbox).
      cbv zeta. simpl snd. apply same_state_graphics.
      eapply restore_after. apply Hbyid.
    + unfold render_element. rewrite Htree, Hbox.
      apply same_state_graphics. split; reflexivity.
  - unfold render_element. rewrite Htree. apply same_state_graphics.
    split; reflexivity.
Qed.

Lemma sample_render_keeps_saved_states :
  render_keeps_saved_states Sample.engine.
Proof. split; intros; reflexivity. Defined.

Lemma draw_keeps_painter_state_witness :
  render_keeps_saved_states Sample.engine /\
  same_graphics_state Sample.painter
    (snd (render (E := Sample.engine) (Q := Sample.host)
            Sample.loaded Sample.painter)) /\
  same_graphics_state Sample.painter
    (snd (render_bounds (E := Sample.engine) (Q := Sample.host)
            Sample.loaded Sample.painter (mkQRectF 100 100 60 80))) /\
  same_graphics_state Sample.painter
    (snd (render_element (E := Sample.engine) (Q := Sample.host)
            Sample.loaded Sample.painter "bar" (mkQRectF 100 100 60 80))).
Proof.
  split; [exact sample_render_keeps_saved_states |].
  exact (draw_keeps_painter_state (E := Sample.engine) (Q := Sample.host)
           sample_render_keeps_saved_states Sample.loaded Sample.painter
           "bar" (mkQRectF 100 100 60 80)).
Defined.

Lemma sample_distinct_error_values : distinct_error_values Sample.engine.
Proof.
  intros e1 e2. destruct e1, e2; simpl; intros Heq;
    first [reflexivity | discriminate Heq].
Defined.

Lemma error_translation_total_witness :
  distinct_error_values Sample.engine /\
  errorToString (E := Sample.engine) 6 = Some "Failed to parse an SVG data."%string /\
  errorToString (E := Sample.engine) 8 = None /\
  exists s',
    load_data (E := Sample.engine) (Q := Sample.host) Sample.loaded []
      = Some (false, s') /\
    errorString s' = "Failed to parse an SVG data."%string.
Proof.
  split; [exact sample_distinct_error_values |].
  destruct (error_translation_total (E := Sample.engine) (Q := Sample.host)
              sample_distinct_error_values)
    as (Htable & _ & Hout & Hdata & _).
  split; [exact (Htable RESVG_ERROR_PARSING_FAILED) |].
  split.
  - apply Hout. intros code. destruct code; simpl; lia.
  - apply (Hdata Sample.loaded [] RESVG_ERROR_PARSING_FAILED).
    + discriminate.
    + reflexivity.
Defined.

(** ** Further checks of the model on the sample engine *)

(** Scenario: element "foo" with box (10, 20, 30, 40) drawn in the bounds
    (100, 100, 60, 80) is scaled by (2, 2) and moved to (100, 100); on a
    painter whose transform is the translation by (5, 5) the engine sees
    the product, and the target size is (30, 40). *)
Example draw_foo_in_bounds :
  fst (render_element (E := Sample.engine) (Q := Sample.host) Sample.loaded
         Sample.painter "foo" (mkQRectF 100 100 60 80)) =
  emit (EvRenderToCanvasById 1%positive (opt (d Sample.loaded)) (mkSize 30 40)
          "foo"
          (mkPainter
             (mkPainterState (mkQTransform 2 0 0 2 105 105)
                             [mkQRect 0 0 50 50] 3)
             [state Sample.painter] (viewport Sample.painter)))
       Sample.loaded.
Proof. reflexivity. Qed.

(** The whole-document draw translates to the origin of the effective
    rectangle; with zero bounds that is the viewport's. *)
Example draw_whole_in_viewport :
  exists q sz,
    trace (fst (render (E := Sample.engine) (Q := Sample.host) Sample.loaded
                  Sample.painter)) = [EvRenderToCanvas 1%positive
                                        (opt (d Sample.loaded)) sz q] /\
    sz = mkSize 200 100 /\
    worldTransform (state q) = mkQTransform 2 0 0 2 5 5.
Proof. do 2 eexists. repeat split; reflexivity. Qed.

(** A successful load after a successful load destroys the first tree. *)
Example second_load_destroys_first :
  exists s',
    load (E := Sample.engine) (Q := Sample.host) Sample.loaded ":/i.svg"
      = Some (true, s') /\
    tree (d s') = Some 2%positive /\
    trace s' = [EvTreeDestroy 1%positive; EvDeleteArray "/a.svg"].
Proof. eexists. repeat split; reflexivity. Qed.

(** * Further properties of the header *)

(** ** The shape of a load *)

Section LoadShape.
Context {E : ResvgApi} {Q : QtHost}.

(** A message the translator gives for a code other than [RESVG_OK] is not
    empty. *)
Lemma errorToString_nonempty (c : Z) (msg : string) :
  (c =? resvg_error_value RESVG_OK) = false ->
  errorToString c = Some msg -> msg <> EmptyString.
Proof.
  intros Hnot. unfold errorToString. rewrite Hnot.
  repeat match goal with
         | |- context [if ?b then _ else _] => destruct b
         end;
    intros [= <-]; discriminate.
Qed.

(** The tail of a load on the state a reset leaves (no tree): the tree is
    the one the engine stored; a true result comes with that tree's view
    box, a false one with a message. *)
Lemma finish_after_reset (res : parse_result) (s0 s' : State) (ok : bool) :
  tree (d s0) = None ->
  finish_load res (store_tree res s0) = Some (ok, s') ->
  opt (d s') = opt (d s0) /\ trace s' = trace s0 /\
  tree (d s') = out_tree res /\
  if ok then
    exists t, out_tree res = Some t /\
              viewBox (d s') = QRectF_of_rect (resvg_get_image_viewbox t) /\
              errMsg (d s') = errMsg (d s0)
  else
    err res <> resvg_error_value RESVG_OK /\
    viewBox (d s') = viewBox (d s0) /\
    errMsg (d s') <> EmptyString.
Proof.
  intros Hnone. unfold finish_load, store_tree.
  destruct (err res =? resvg_error_value RESVG_OK) eqn:Hok; simpl.
  - destruct (out_tree res) as [t |]; simpl.
    + intros [= <- <-]. simpl. repeat split. exists t. repeat split.
    + rewrite Hnone. discriminate.
  - destruct (errorToString (err res)) as [msg |] eqn:Hmsg; [| discriminate].
    intros [= <- <-].
    assert (Hne : msg <> EmptyString)
      by exact (errorToString_nonempty (err res) msg Hok Hmsg).
    apply Z.eqb_neq in Hok.
    destruct (out_tree res) as [t |]; simpl; [| rewrite Hnone];
      repeat split; assumption.
Qed.

(** Every load, by what the engine answers.  With a parse, the reset has
    run, the tree is the stored one, the base path is the duplicated one,
    the DPI is the reset's, and the result tells the view box from the
    message; without a parse (a resource that does not open) the result is
    false and the state is untouched. *)
Lemma load_call_shape (s s' : State) (c : Call) (ok : bool) :
  load_call s c = Some (ok, s') ->
  match engine_answer c with
  | Some res =>
      trace s' = trace s ++ released s /\
      tree (d s') = out_tree res /\
      opt (d s') = mkOptions (duplicated_path c) (dpi reset_options) /\
      if ok then
        exists t, out_tree res = Some t /\
                  viewBox (d s') = QRectF_of_rect (resvg_get_image_viewbox t) /\
                  errMsg (d s') = EmptyString
      else
        err res <> resvg_error_value RESVG_OK /\
        viewBox (d s') = QRectF_null /\
        errMsg (d s') <> EmptyString
  | None => ok = false /\ s' = s
  end.
Proof.
  assert (Hdata : forall data,
            load_data s data = Some (ok, s') ->
            trace s' = trace s ++ released s /\
            tree (d s') = out_tree (resvg_parse_tree_from_data data reset_options) /\
            opt (d s') = mkOptions None (dpi reset_options) /\
            if ok then
              exists t,
                out_tree (resvg_parse_tree_from_data data reset_options) = Some t /\
                viewBox (d s') = QRectF_of_rect (resvg_get_image_viewbox t) /\
                errMsg (d s') = EmptyString
            else
              err (resvg_parse_tree_from_data data reset_options)
                <> resvg_error_value RESVG_OK /\
              viewBox (d s') = QRectF_null /\
              errMsg (d s') <> EmptyString).
  { intros data. unfold load_data. rewrite reset_unfold. cbn [d opt].
    intros Hload.
    apply finish_after_reset in Hload as (Hopt & Htrace & Htree & Hres);
      [| reflexivity].
    repeat split; assumption. }
  destruct c as [filePath | data | p bounds | p id bounds];
    simpl; try discriminate.
  - unfold load.
    destruct (String.prefix ":/" filePath) eqn:Hprefix.
    + destruct (QFile_readAll filePath) as [data |].
      * apply Hdata.
      * intros [= <- <-]. split; reflexivity.
    + rewrite reset_unfold. cbn [d opt with_opt dpi trace tree viewBox errMsg].
      rewrite qstrdup_c_str. intros Hload.
      apply finish_after_reset in Hload as (Hopt & Htrace & Htree & Hres);
        [| reflexivity].
      repeat split; assumption.
  - apply Hdata.
Qed.

(** A call that is a load and succeeds as a call has a load result. *)
Lemma call_load_result (s s' : State) (c : Call) :
  is_draw c = false -> call s c = Some s' ->
  exists ok, load_call s c = Some (ok, s').
Proof.
  destruct c as [filePath | data | p bounds | p id bounds];
    simpl; try discriminate; intros _.
  - destruct (load s filePath) as [[ok s1] |]; [| discriminate].
    intros [= <-]. exists ok. reflexivity.
  - destruct (load_data s data) as [[ok s1] |]; [| discriminate].
    intros [= <-]. exists ok. reflexivity.
Qed.

(** A draw adds to the trace and leaves the private data alone. *)
Lemma call_draw_shape (s s' : State) (c : Call) :
  is_draw c = true -> call s c = Some s' ->
  d s' = d s /\
  exists ev, (trace s' = trace s \/ trace s' = trace s ++ [ev]) /\
             destroyed [ev] = [] /\ deleted [ev] = [].
Proof.
  destruct c as [filePath | data | p bounds | p id bounds];
    simpl; try discriminate; intros _ [= <-].
  - split; [apply render_bounds_data |].
    unfold render_bounds. destruct (tree (d s)) as [t |].
    + eexists. split; [right; reflexivity | split; reflexivity].
    + exists (EvWarning EmptyString). split; [left; reflexivity | split; reflexivity].
  - split; [apply render_element_data |].
    unfold render_element. destruct (tree (d s)) as [t |].
    + destruct (resvg_qt_get_node_bbox t (opt (d s)) (c_str id));
        eexists; (split; [right; reflexivity | split; reflexivity]).
    + exists (EvWarning EmptyString). split; [left; reflexivity | split; reflexivity].
Qed.

End LoadShape.

(** ** Trees and paths over the life of a renderer *)

Section Accounting.
Context {E : ResvgApi} {Q : QtHost}.

Lemma destroyed_app (tr1 tr2 : list Event) :
  destroyed (tr1 ++ tr2) = destroyed tr1 ++ destroyed tr2.
Proof. apply flat_map_app. Qed.

Lemma deleted_app (tr1 tr2 : list Event) :
  deleted (tr1 ++ tr2) = deleted tr1 ++ deleted tr2.
Proof. apply flat_map_app. Qed.

Lemma destroyed_released (s : State) :
  destroyed (released s) = olist (tree (d s)).
Proof.
  unfold released. destruct (tree (d s)), (path (opt (d s))); reflexivity.
Qed.

Lemma deleted_released (s : State) :
  deleted (released s) = olist (path (opt (d s))).
Proof.
  unfold released. destruct (tree (d s)), (path (opt (d s))); reflexivity.
Qed.

(** One call: what was released or is owned grows by what the call
    acquired, at the end. *)
Lemma accounting_call (s s' : State) (c : Call) :
  call s c = Some s' ->
  destroyed (trace s') ++ olist (tree (d s')) =
    (destroyed (trace s) ++ olist (tree (d s))) ++ stored_tree c /\
  deleted (trace s') ++ olist (path (opt (d s'))) =
    (deleted (trace s) ++ olist (path (opt (d s)))) ++ olist (duplicated_path c).
Proof.
  intros Hcall. destruct (is_draw c) eqn:Hdraw.
  - destruct (call_draw_shape s s' c Hdraw Hcall)
      as (Hd & ev & Htrace & Hnotree & Hnopath).
    assert (Hstored : stored_tree c = []) by (destruct c; try discriminate; reflexivity).
    assert (Hdup : duplicated_path c = None) by (destruct c; try discriminate; reflexivity).
    rewrite Hstored, Hdup, Hd, !app_nil_r.
    destruct Htrace as [-> | ->]; [split; reflexivity |].
    rewrite destroyed_app, deleted_app, Hnotree, Hnopath, !app_nil_r.
    split; reflexivity.
  - destruct (call_load_result s s' c Hdraw Hcall) as [ok Hload].
    pose proof (load_call_shape s s' c ok Hload) as Hshape.
    unfold stored_tree.
    destruct (engine_answer c) as [res |] eqn:Hanswer.
    + destruct Hshape as (Htrace & Htree & Hopt & _).
      rewrite Htrace, Htree, Hopt, destroyed_app, deleted_app,
        destroyed_released, deleted_released.
      split; reflexivity.
    + destruct Hshape as [_ ->].
      assert (Hdup : duplicated_path c = None).
      { destruct c as [filePath | | |]; simpl in *; try discriminate.
        destruct (String.prefix ":/" filePath); [reflexivity | discriminate]. }
      rewrite Hdup, !app_nil_r. split; reflexivity.
Qed.

Lemma accounting_run (calls : list Call) :
  forall s s' : State,
    run s calls = Some s' ->
    destroyed (trace s') ++ olist (tree (d s')) =
      (destroyed (trace s) ++ olist (tree (d s))) ++ flat_map stored_tree calls /\
    deleted (trace s') ++ olist (path (opt (d s'))) =
      (deleted (trace s) ++ olist (path (opt (d s)))) ++
      flat_map (fun c => olist (duplicated_path c)) calls.
Proof.
  induction calls as [| c rest IH]; intros s s'; simpl.
  - intros [= <-]. rewrite !app_nil_r. split; reflexivity.
  - destruct (call s c) as [s1 |] eqn:Hcall; [| discriminate].
    intros Hrun.
    destruct (accounting_call s s1 c Hcall) as [Htree1 Hpath1].
    destruct (IH s1 s' Hrun) as [Htree Hpath].
    rewrite Htree, Hpath, Htree1, Hpath1, <- !app_assoc. split; reflexivity.
Qed.

Lemma delete_unfold (s : State) :
  destroyed (trace (ResvgRenderer_delete s)) =
    destroyed (trace s) ++ olist (tree (d s)) /\
  deleted (trace (ResvgRenderer_delete s)) =
    deleted (trace s) ++ olist (path (opt (d s))) /\
  tree (d (ResvgRenderer_delete s)) = None /\
  path (opt (d (ResvgRenderer_delete s))) = None.
Proof.
  unfold ResvgRenderer_delete. rewrite reset_unfold. cbn [trace d tree opt path].
  rewrite destroyed_app, deleted_app, destroyed_released, deleted_released.
  repeat split.
Qed.

End Accounting.

(** X1.  Over any sequence of loads and draws on a new renderer, the trees
    handed to [resvg_tree_destroy] so far, followed by the tree still owned,
    are the trees the engine stored, one for one and in order; once the
    renderer is destroyed, every stored tree has been destroyed and none is
    owned.  So no tree leaks and none is destroyed twice. *)
Theorem trees_destroyed_once `{E : ResvgApi} `{Q : QtHost}
    (calls : list Call) (s : State) :
  run ResvgRenderer_new calls = Some s ->
  destroyed (trace s) ++ olist (tree (d s)) = flat_map stored_tree calls /\
  destroyed (trace (ResvgRenderer_delete s)) = flat_map stored_tree calls /\
  tree (d (ResvgRenderer_delete s)) = None.
Proof.
  intros Hrun.
  destruct (accounting_run calls ResvgRenderer_new s Hrun) as [Htrees _].
  destruct (delete_unfold s) as (Hdestroyed & _ & Hnone & _).
  simpl in Htrees. rewrite Hdestroyed.
  repeat split; assumption.
Qed.

(** X2.  Likewise for the base path: the paths handed to [delete[]] so far,
    followed by the path the options still hold, are the paths [qstrdup]
    made, one for one and in order; destroying the renderer deletes the last
    one. *)
Theorem paths_deleted_once `{E : ResvgApi} `{Q : QtHost}
    (calls : list Call) (s : State) :
  run ResvgRenderer_new calls = Some s ->
  deleted (trace s) ++ olist (path (opt (d s))) =
    flat_map (fun c => olist (duplicated_path c)) calls /\
  deleted (trace (ResvgRenderer_delete s)) =
    flat_map (fun c => olist (duplicated_path c)) calls /\
  path (opt (d (ResvgRenderer_delete s))) = None.
Proof.
  intros Hrun.
  destruct (accounting_run calls ResvgRenderer_new s Hrun) as [_ Hpaths].
  destruct (delete_unfold s) as (_ & Hdeleted & _ & Hnone).
  simpl in Hpaths. rewrite Hdeleted.
  repeat split; assumption.
Qed.

Lemma trees_destroyed_once_witness :
  exists s,
    run (E := Sample.engine) (Q := Sample.host)
      (ResvgRenderer_new (E := Sample.engine))
      [CallLoad "/a.svg"; CallLoadData [Byte.x3c]; CallLoad ":/missing.svg";
       CallRender Sample.painter QRectF_null; CallLoad "/b.svg"] = Some s /\
    destroyed (trace s) ++ olist (tree (d s)) = [1%positive; 2%positive] /\
    destroyed (trace (ResvgRenderer_delete (E := Sample.engine)
                        (Q := Sample.host) s)) = [1%positive; 2%positive].
Proof.
  eexists. split; [reflexivity |].
  pose proof (trees_destroyed_once (E := Sample.engine) (Q := Sample.host)
                [CallLoad "/a.svg"; CallLoadData [Byte.x3c];
                 CallLoad ":/missing.svg";
                 CallRender Sample.painter QRectF_null; CallLoad "/b.svg"]
                _ eq_refl) as (Hnow & Hend & _).
  split; [exact Hnow | exact Hend].
Defined.

Lemma paths_deleted_once_witness :
  exists s,
    run (E := Sample.engine) (Q := Sample.host)
      (ResvgRenderer_new (E := Sample.engine))
      [CallLoad "/a.svg"; CallLoadData [Byte.x3c]; CallLoad ":/missing.svg";
       CallRender Sample.painter QRectF_null; CallLoad "/b.svg"] = Some s /\
    deleted (trace s) = ["/a.svg"%string] /\
    path (opt (d s)) = Some "/b.svg"%string /\
    deleted (trace (ResvgRenderer_delete (E := Sample.engine)
                      (Q := Sample.host) s)) = ["/a.svg"; "/b.svg"]%string.
Proof.
  eexists. split; [reflexivity |].
  split; [reflexivity |]. split; [reflexivity |].
  exact (proj1 (proj2
    (paths_deleted_once (E := Sample.engine) (Q := Sample.host)
       [CallLoad "/a.svg"; CallLoadData [Byte.x3c]; CallLoad ":/missing.svg";
        CallRender Sample.painter QRectF_null; CallLoad "/b.svg"]
       _ eq_refl))).
Defined.

(** ** The document, the view box, the message and the DPI *)

Section Settled.
Context {E : ResvgApi} {Q : QtHost}.

Lemma next_origin_parse (o : Origin) (c : Call) (res : parse_result) :
  engine_answer c = Some res ->
  next_origin o c <> Fresh /\
  path_of_origin (next_origin o c) = duplicated_path c.
Proof.
  destruct c as [filePath | data | p bounds | p id bounds];
    simpl; try discriminate.
  - destruct (String.prefix ":/" filePath).
    + destruct (QFile_readAll filePath); [| discriminate].
      intros _. split; [discriminate | reflexivity].
    + intros _. split; [discriminate | reflexivity].
  - intros _. split; [discriminate | reflexivity].
Qed.

Lemma next_origin_no_parse (o : Origin) (c : Call) :
  engine_answer c = None -> next_origin o c = o.
Proof.
  destruct c as [filePath | data | p bounds | p id bounds];
    simpl; try discriminate; try reflexivity.
  destruct (String.prefix ":/" filePath); [| discriminate].
  destruct (QFile_readAll filePath); [discriminate | reflexivity].
Qed.

Lemma options_of_origin_parse (o : Origin) :
  o <> Fresh ->
  options_of_origin o = mkOptions (path_of_origin o) (dpi reset_options).
Proof. destruct o; [intros H; now elim H | reflexivity | reflexivity]. Qed.

(** The options follow the origin, call by call. *)
Lemma options_call (s s' : State) (o : Origin) (c : Call) :
  opt (d s) = options_of_origin o -> call s c = Some s' ->
  opt (d s') = options_of_origin (next_origin o c).
Proof.
  intros Hopt Hcall. destruct (is_draw c) eqn:Hdraw.
  - destruct (call_draw_shape s s' c Hdraw Hcall) as [Hd _].
    rewrite Hd, next_origin_no_parse; [exact Hopt |].
    destruct c; try discriminate; reflexivity.
  - destruct (call_load_result s s' c Hdraw Hcall) as [ok Hload].
    pose proof (load_call_shape s s' c ok Hload) as Hshape.
    destruct (engine_answer c) as [res |] eqn:Hanswer.
    + destruct Hshape as (_ & _ & Hopt' & _).
      destruct (next_origin_parse o c res Hanswer) as [Hfresh Hpath].
      rewrite (options_of_origin_parse _ Hfresh), Hpath. exact Hopt'.
    + destruct Hshape as [_ ->].
      rewrite (next_origin_no_parse o c Hanswer). exact Hopt.
Qed.

Lemma options_run (calls : list Call) :
  forall (s s' : State) (o : Origin),
    opt (d s) = options_of_origin o -> run s calls = Some s' ->
    opt (d s') = options_of_origin (fold_left next_origin calls o).
Proof.
  induction calls as [| c rest IH]; intros s s' o Hopt; simpl.
  - intros [= <-]. exact Hopt.
  - destruct (call s c) as [s1 |] eqn:Hcall; [| discriminate].
    apply IH. apply (options_call s s1 o c Hopt Hcall).
Qed.

Hypothesis Hengine : failed_parse_stores_no_tree E.

Lemma failed_answer_stores_no_tree (c : Call) (res : parse_result) :
  engine_answer c = Some res ->
  err res <> resvg_error_value RESVG_OK -> out_tree res = None.
Proof.
  destruct Hengine as [Hfile Hdata].
  destruct c as [filePath | data | p bounds | p id bounds];
    simpl; try discriminate.
  - destruct (String.prefix ":/" filePath).
    + destruct (QFile_readAll filePath); [| discriminate].
      intros [= <-]. apply Hdata.
    + intros [= <-]. apply Hfile.
  - intros [= <-]. apply Hdata.
Qed.

Lemma settled_call (s s' : State) (o : Origin) (c : Call) :
  document_settled s o -> call s c = Some s' ->
  document_settled s' (next_origin o c).
Proof.
  intros Hset Hcall. destruct (is_draw c) eqn:Hdraw.
  - destruct (call_draw_shape s s' c Hdraw Hcall) as [Hd _].
    rewrite next_origin_no_parse by (destruct c; try discriminate; reflexivity).
    unfold document_settled in *. rewrite Hd. exact Hset.
  - destruct (call_load_result s s' c Hdraw Hcall) as [ok Hload].
    pose proof (load_call_shape s s' c ok Hload) as Hshape.
    destruct (engine_answer c) as [res |] eqn:Hanswer.
    + destruct (next_origin_parse o c res Hanswer) as [Hfresh _].
      destruct Hshape as (_ & Htree & _ & Hres).
      assert (Hgoal : match tree (d s') with
                      | Some t =>
                          errMsg (d s') = EmptyString /\
                          viewBox (d s') = QRectF_of_rect (resvg_get_image_viewbox t)
                      | None =>
                          errMsg (d s') <> EmptyString /\ viewBox (d s') = QRectF_null
                      end).
      { destruct ok.
        - destruct Hres as (t & Hstored & Hview & Hmsg).
          rewrite Htree, Hstored. split; assumption.
        - destruct Hres as (Hfail & Hview & Hmsg).
          rewrite Htree, (failed_answer_stores_no_tree c res Hanswer Hfail).
          split; assumption. }
      unfold document_settled.
      destruct (next_origin o c); [now elim Hfresh | exact Hgoal | exact Hgoal].
    + destruct Hshape as [_ ->].
      rewrite (next_origin_no_parse o c Hanswer). exact Hset.
Qed.

Lemma settled_run (calls : list Call) :
  forall (s s' : State) (o : Origin),
    document_settled s o -> run s calls = Some s' ->
    document_settled s' (fold_left next_origin calls o).
Proof.
  induction calls as [| c rest IH]; intros s s' o Hset; simpl.
  - intros [= <-]. exact Hset.
  - destruct (call s c) as [s1 |] eqn:Hcall; [| discriminate].
    apply IH. apply (settled_call s s1 o c Hset Hcall).
Qed.

End Settled.

(** X5.  After any sequence of loads and draws on a new renderer,
    [errorString] is empty exactly when a document is owned or no load has
    got as far as the parse yet: once a parse was made, a renderer without
    a document always has a message and one with a document never has,
    given that a failed parse stores no tree. *)
Theorem errorString_empty_iff `{E : ResvgApi} `{Q : QtHost}
    (Hengine : failed_parse_stores_no_tree E)
    (calls : list Call) (s : State) :
  run ResvgRenderer_new calls = Some s ->
  (errorString s = EmptyString <->
   isValid s = true \/ origin_after calls = Fresh).
Proof.
  intros Hrun.
  pose proof (settled_run Hengine calls ResvgRenderer_new s Fresh eq_refl Hrun)
    as Hset.
  unfold origin_after, errorString, isValid, document_settled in *.
  destruct (fold_left next_origin calls Fresh) as [| | rawFilePath].
  - rewrite Hset. split; [intros _; right; reflexivity | reflexivity].
  - destruct (tree (d s)) as [t |]; destruct Hset as [Hmsg _].
    + split; [intros _; left; reflexivity | intros _; exact Hmsg].
    + split; [intros Hempty; now elim Hmsg |].
      intros [Hvalid | Hfresh]; discriminate.
  - destruct (tree (d s)) as [t |]; destruct Hset as [Hmsg _].
    + split; [intros _; left; reflexivity | intros _; exact Hmsg].
    + split; [intros Hempty; now elim Hmsg |].
      intros [Hvalid | Hfresh]; discriminate.
Qed.

Lemma errorString_empty_iff_witness :
  failed_parse_stores_no_tree Sample.engine /\
  exists s,
    run (E := Sample.engine) (Q := Sample.host)
      (ResvgRenderer_new (E := Sample.engine))
      [CallLoad "/a.svg"; CallLoad "/b.svg"; CallLoad ":/missing.svg"] = Some s /\
    isValid s = false /\
    errorString s = "Failed to open the file."%string /\
    ~ errorString s = EmptyString.
Proof.
  split; [exact sample_failed_parse_stores_no_tree |].
  eexists. split; [reflexivity |]. split; [reflexivity |].
  split; [reflexivity |].
  intros Hempty.
  apply (errorString_empty_iff (E := Sample.engine) (Q := Sample.host)
           sample_failed_parse_stores_no_tree
           [CallLoad "/a.svg"; CallLoad "/b.svg"; CallLoad ":/missing.svg"]
           _ eq_refl) in Hempty.
  destruct Hempty as [Hvalid | Hfresh]; discriminate.
Defined.

(** X6.  After any sequence of loads and draws on a new renderer, the view
    box is that of the tree now owned, as the engine reports it, and the
    default size is its width and height; without a document the stored
    view box is the zero rectangle (given that a failed parse stores no
    tree). *)
Theorem viewBox_of_owned_tree `{E : ResvgApi} `{Q : QtHost}
    (Hengine : failed_parse_stores_no_tree E)
    (calls : list Call) (s : State) :
  run ResvgRenderer_new calls = Some s ->
  match tree (d s) with
  | Some t =>
      viewBoxF s = QRectF_of_rect (resvg_get_image_viewbox t) /\
      defaultSizeF s =
        mkQSizeF (rect_width (resvg_get_image_viewbox t))
                 (rect_height (resvg_get_image_viewbox t))
  | None => viewBox (d s) = QRectF_null /\ viewBoxF s = QRectF_null
  end.
Proof.
  intros Hrun.
  pose proof (settled_run Hengine calls ResvgRenderer_new s Fresh eq_refl Hrun)
    as Hset.
  unfold viewBoxF, defaultSizeF, document_settled in *.
  destruct (fold_left next_origin calls Fresh) as [| | rawFilePath].
  - rewrite Hset. split; reflexivity.
  - destruct (tree (d s)) as [t |]; destruct Hset as [_ Hview];
      rewrite Hview; split; reflexivity.
  - destruct (tree (d s)) as [t |]; destruct Hset as [_ Hview];
      rewrite Hview; split; reflexivity.
Qed.

Lemma viewBox_of_owned_tree_witness :
  failed_parse_stores_no_tree Sample.engine /\
  exists s,
    run (E := Sample.engine) (Q := Sample.host)
      (ResvgRenderer_new (E := Sample.engine))
      [CallLoad "/b.svg"; CallLoad "/a.svg"; CallLoad ":/i.svg"] = Some s /\
    tree (d s) = Some 2%positive /\
    viewBoxF s = mkQRectF 0 0 10 10.
Proof.
  split; [exact sample_failed_parse_stores_no_tree |].
  eexists. split; [reflexivity |]. split; [reflexivity |].
  exact (proj1
    (viewBox_of_owned_tree (E := Sample.engine) (Q := Sample.host)
       sample_failed_parse_stores_no_tree
       [CallLoad "/b.svg"; CallLoad "/a.svg"; CallLoad ":/i.svg"] _ eq_refl)).
Defined.

(** X7.  The options the engine is given: a new renderer holds the engine's
    default DPI, whatever the screens; from the first load that resets it
    on, the DPI is the first screen's logical DPI times its pixel ratio
    (the engine default when there is no screen), and the base path is the
    one of that load. *)
Theorem options_follow_origin `{E : ResvgApi} `{Q : QtHost}
    (calls : list Call) (s : State) :
  run ResvgRenderer_new calls = Some s ->
  opt (d s) = options_of_origin (origin_after calls) /\
  (origin_after calls = Fresh -> dpi (opt (d s)) = resvg_default_dpi) /\
  (origin_after calls <> Fresh -> dpi (opt (d s)) = dpi reset_options).
Proof.
  intros Hrun.
  pose proof (options_run calls ResvgRenderer_new s Fresh eq_refl Hrun) as Hopt.
  fold (origin_after calls) in Hopt.
  split; [exact Hopt |]. rewrite Hopt. split.
  - intros ->. reflexivity.
  - intros Hfresh. rewrite (options_of_origin_parse _ Hfresh). reflexivity.
Qed.

Lemma options_follow_origin_witness :
  dpi (opt (d (ResvgRenderer_new (E := Sample.engine)))) = 96%float /\
  exists s,
    run (E := Sample.engine) (Q := Sample.host)
      (ResvgRenderer_new (E := Sample.engine))
      [CallLoadData []] = Some s /\
    opt (d s) = mkOptions None 192.
Proof.
  split; [reflexivity |].
  eexists. split; [reflexivity |].
  exact (proj1
    (options_follow_origin (E := Sample.engine) (Q := Sample.host)
       [CallLoadData []] _ eq_refl)).
Defined.

(** ** What a load returns *)

Section LoadResult.
Context {E : ResvgApi} {Q : QtHost}.

Lemma reaches_parse_answer (c : Call) :
  reaches_parse c = true -> exists res, engine_answer c = Some res.
Proof.
  destruct c as [filePath | data | p bounds | p id bounds];
    simpl; try discriminate.
  - destruct (String.prefix ":/" filePath).
    + destruct (QFile_readAll filePath); [| discriminate].
      intros _. eexists. reflexivity.
    + intros _. eexists. reflexivity.
  - intros _. eexists. reflexivity.
Qed.

(** The tail of a load passes the trace through. *)
Lemma finish_store_trace (res : parse_result) (D : Data) (tr1 tr2 : list Event) :
  outcome (finish_load res (store_tree res (mkState D tr1))) =
  outcome (finish_load res (store_tree res (mkState D tr2))).
Proof.
  unfold outcome, finish_load, store_tree.
  destruct (out_tree res) as [t |];
    destruct (negb (err res =? resvg_error_value RESVG_OK)); simpl;
    try destruct (errorToString (err res)); try destruct (tree D);
    reflexivity.
Qed.

(** With the contract of the parse, the result of a load that reaches the
    parse is what [isValid] says afterwards. *)
Lemma load_call_isValid (s s' : State) (c : Call) (ok : bool) :
  failed_parse_stores_no_tree E ->
  reaches_parse c = true ->
  load_call s c = Some (ok, s') -> isValid s' = ok.
Proof.
  intros Hengine Hparse Hload.
  destruct (reaches_parse_answer c Hparse) as [res Hanswer].
  pose proof (load_call_shape s s' c ok Hload) as Hshape.
  rewrite Hanswer in Hshape. destruct Hshape as (_ & Htree & _ & Hres).
  unfold isValid. rewrite Htree. destruct ok.
  - destruct Hres as (t & -> & _). reflexivity.
  - destruct Hres as (Hfail & _).
    rewrite (failed_answer_stores_no_tree Hengine c res Hanswer Hfail).
    reflexivity.
Qed.

End LoadResult.

(** X3.  A load that reaches the parse (bytes, a file-system path, or a
    resource that opens) returns exactly what [isValid] answers afterwards,
    given that a failed parse stores no tree. *)
Theorem load_result_is_isValid `{E : ResvgApi} `{Q : QtHost}
    (Hengine : failed_parse_stores_no_tree E)
    (s s' : State) (c : Call) (ok : bool) :
  reaches_parse c = true ->
  load_call s c = Some (ok, s') ->
  isValid s' = ok /\ (ok = true <-> exists t, tree (d s') = Some t).
Proof.
  intros Hparse Hload.
  pose proof (load_call_isValid s s' c ok Hengine Hparse Hload) as Hvalid.
  split; [exact Hvalid |].
  unfold isValid in Hvalid. destruct (tree (d s')) as [t |]; subst ok.
  - split; [intros _; exists t; reflexivity | reflexivity].
  - split; [discriminate | intros [t Ht]; discriminate].
Qed.

Lemma load_result_is_isValid_witness :
  failed_parse_stores_no_tree Sample.engine /\
  reaches_parse (Q := Sample.host) (CallLoad ":/i.svg") = true /\
  exists s',
    load_call (E := Sample.engine) (Q := Sample.host) Sample.failed
      (CallLoad ":/i.svg") = Some (true, s') /\
    isValid s' = true.
Proof.
  split; [exact sample_failed_parse_stores_no_tree |].
  split; [reflexivity |].
  eexists. split; [reflexivity |].
  exact (proj1
    (load_result_is_isValid (E := Sample.engine) (Q := Sample.host)
       sample_failed_parse_stores_no_tree Sample.failed _
       (CallLoad ":/i.svg") true eq_refl eq_refl)).
Defined.

(** X4.  The constructors that load drop the result of the load, and
    nothing is lost: the renderer they build is valid exactly when that
    load returned true (a resource that does not open included), and its
    first reset released nothing. *)
Theorem constructor_keeps_load_result `{E : ResvgApi} `{Q : QtHost}
    (Hengine : failed_parse_stores_no_tree E) :
  (forall filePath ok s,
     load ResvgRenderer_new filePath = Some (ok, s) ->
     ResvgRenderer_of_filePath filePath = Some s /\
     isValid s = ok /\ trace s = []) /\
  (forall data ok s,
     load_data ResvgRenderer_new data = Some (ok, s) ->
     ResvgRenderer_of_data data = Some s /\
     isValid s = ok /\ trace s = []).
Proof.
  assert (Hany : forall c ok s,
            is_draw c = false ->
            load_call ResvgRenderer_new c = Some (ok, s) ->
            isValid s = ok /\ trace s = []).
  { intros c ok s Hdraw Hload.
    destruct (reaches_parse c) eqn:Hparse.
    - split; [apply (load_call_isValid _ s c ok Hengine Hparse Hload) |].
      destruct (reaches_parse_answer c Hparse) as [res Hanswer].
      pose proof (load_call_shape _ s c ok Hload) as Hshape.
      rewrite Hanswer in Hshape. destruct Hshape as [Htrace _].
      rewrite Htrace. reflexivity.
    - pose proof (load_call_shape _ s c ok Hload) as Hshape.
      destruct (engine_answer c) as [res |] eqn:Hanswer.
      + exfalso. destruct c as [filePath | data | |]; simpl in *;
          try discriminate.
        destruct (String.prefix ":/" filePath); [| discriminate].
        destruct (QFile_readAll filePath); discriminate.
      + destruct Hshape as [-> ->]. split; reflexivity. }
  split.
  - intros filePath ok s Hload.
    split; [unfold ResvgRenderer_of_filePath; rewrite Hload; reflexivity |].
    apply (Hany (CallLoad filePath) ok s eq_refl Hload).
  - intros data ok s Hload.
    split; [unfold ResvgRenderer_of_data; rewrite Hload; reflexivity |].
    apply (Hany (CallLoadData data) ok s eq_refl Hload).
Qed.

Lemma constructor_keeps_load_result_witness :
  failed_parse_stores_no_tree Sample.engine /\
  ResvgRenderer_of_filePath (E := Sample.engine) (Q := Sample.host) "/a.svg"
    = Some Sample.loaded /\
  isValid Sample.loaded = true.
Proof.
  split; [exact sample_failed_parse_stores_no_tree |].
  destruct (proj1 (constructor_keeps_load_result (E := Sample.engine)
                     (Q := Sample.host) sample_failed_parse_stores_no_tree)
              "/a.svg"%string true Sample.loaded eq_refl)
    as (Hctor & Hvalid & _).
  split; [exact Hctor | exact Hvalid].
Defined.

(** X13.  A load that reaches the parse starts from scratch: its result and
    the document, options, view box and message it leaves are the same
    whatever the renderer held before. *)
Theorem load_forgets_the_past `{E : ResvgApi} `{Q : QtHost}
    (s1 s2 : State) (c : Call) :
  reaches_parse c = true ->
  outcome (load_call s1 c) = outcome (load_call s2 c).
Proof.
  assert (Hdata : forall data,
            outcome (load_data s1 data) = outcome (load_data s2 data)).
  { intros data. unfold load_data. rewrite !reset_unfold. cbn [d opt].
    apply finish_store_trace. }
  destruct c as [filePath | data | p bounds | p id bounds];
    simpl; try discriminate.
  - unfold load. destruct (String.prefix ":/" filePath).
    + destruct (QFile_readAll filePath) as [data |]; [| discriminate].
      intros _. apply Hdata.
    + intros _. rewrite !reset_unfold. unfold with_opt. cbn [d opt dpi trace tree viewBox errMsg].
      apply finish_store_trace.
  - intros _. apply Hdata.
Qed.

Lemma load_forgets_the_past_witness :
  reaches_parse (Q := Sample.host) (CallLoad "/b.svg") = true /\
  outcome (load_call (E := Sample.engine) (Q := Sample.host)
             (ResvgRenderer_new (E := Sample.engine)) (CallLoad "/b.svg")) =
  outcome (load_call (E := Sample.engine) (Q := Sample.host)
             Sample.loaded (CallLoad "/b.svg")).
Proof.
  split; [reflexivity |].
  exact (load_forgets_the_past (E := Sample.engine) (Q := Sample.host)
           (ResvgRenderer_new (E := Sample.engine)) Sample.loaded
           (CallLoad "/b.svg") eq_refl).
Defined.

(** ** Drawing, further *)

(** X8.  A draw of the whole document calls the engine once, with the view
    box truncated to the target size, on the painter with
    (r.width / vb.width, 0, 0, r.height / vb.height, r.x, r.y) composed onto
    its transform: the translation is the origin of the rectangle the scale
    comes from.  Bounds that are not valid (a zero, negative or NaN extent)
    count as no bounds, and the viewport is taken, origin included;
    [render(p)] is that case. *)
Theorem render_bounds_transform `{E : ResvgApi} `{Q : QtHost}
    (s : State) (p : QPainter) (bounds : QRectF) (t : resvg_render_tree) :
  tree (d s) = Some t ->
  let vb := viewBox (d s) in
  let m := document_transform bounds p vb in
  let q := prepared m p in
  let imgSize := mkSize (uint_of_double (qr_width vb))
                        (uint_of_double (qr_height vb)) in
  render_bounds s p bounds =
    (emit (EvRenderToCanvas t (opt (d s)) imgSize q) s,
     restore (resvg_qt_render_to_canvas t (opt (d s)) imgSize q)) /\
  worldTransform (state q) = QTransform_mul m (worldTransform (state p)) /\
  (QRectF_isValid bounds = true ->
     m = mkQTransform (qr_width bounds / qr_width vb) 0 0
                      (qr_height bounds / qr_height vb)
                      (qr_x bounds) (qr_y bounds)) /\
  (QRectF_isValid bounds = false ->
     m = mkQTransform (double_of_int (rw (viewport p)) / qr_width vb) 0 0
                      (double_of_int (rh (viewport p)) / qr_height vb)
                      (double_of_int (rx (viewport p)))
                      (double_of_int (ry (viewport p)))) /\
  render s p = render_bounds s p (mkQRectF 0 0 0 0).
Proof.
  intros Htree vb m q imgSize.
  split; [apply (render_bounds_unfold s p bounds t Htree) |].
  split; [apply prepared_transform |].
  split; [| split].
  - intros Hvalid. unfold m, document_transform, target_rect.
    rewrite Hvalid. reflexivity.
  - intros Hinvalid. unfold m, document_transform, target_rect.
    rewrite Hinvalid. reflexivity.
  - reflexivity.
Qed.

Lemma render_bounds_transform_witness :
  tree (d Sample.loaded) = Some 1%positive /\
  QRectF_isValid (mkQRectF 10 10 (-5) nan) = false /\
  document_transform (mkQRectF 10 10 (-5) nan) Sample.painter
    (viewBox (d Sample.loaded)) = mkQTransform 2 0 0 2 0 0 /\
  fst (render_bounds (E := Sample.engine) (Q := Sample.host) Sample.loaded
         Sample.painter (mkQRectF 10 10 (-5) nan)) =
  emit (EvRenderToCanvas 1%positive (opt (d Sample.loaded)) (mkSize 200 100)
          (prepared (Q := Sample.host) (mkQTransform 2 0 0 2 0 0)
             Sample.painter))
       Sample.loaded.
Proof.
  split; [reflexivity |]. split; [reflexivity |]. split; [reflexivity |].
  exact (f_equal fst
    (proj1 (render_bounds_transform (E := Sample.engine) (Q := Sample.host)
              Sample.loaded Sample.painter (mkQRectF 10 10 (-5) nan)
              1%positive eq_refl))).
Defined.

(** X9.  A draw call leaves the painter's stack of saved states as it was:
    the [save] it makes is undone by its [restore], on every path, when the
    engine keeps the stack balanced. *)
Theorem draw_balances_save_restore `{E : ResvgApi} `{Q : QtHost}
    (Hengine : render_keeps_saved_states E)
    (s : State) (p : QPainter) (id : string) (bounds : QRectF) :
  saved (snd (render s p)) = saved p /\
  saved (snd (render_bounds s p bounds)) = saved p /\
  saved (snd (render_element s p id bounds)) = saved p.
Proof.
  destruct Hengine as [Hwhole Hbyid].
  assert (Hbounds : forall b, saved (snd (render_bounds s p b)) = saved p).
  { intros b. destruct (tree (d s)) as [t |] eqn:Htree.
    - rewrite (render_bounds_unfold s p b t Htree). cbv zeta. simpl snd.
      eapply restore_after. apply Hwhole.
    - unfold render_bounds. rewrite Htree. reflexivity. }
  split; [apply Hbounds |]. split; [apply Hbounds |].
  unfold render_element.
  destruct (tree (d s)) as [t |] eqn:Htree; [| reflexivity].
  destruct (resvg_qt_get_node_bbox t (opt (d s)) (c_str id)) as [bbox |];
    [| reflexivity].
  simpl snd. eapply restore_after. apply Hbyid.
Qed.

Lemma draw_balances_save_restore_witness :
  render_keeps_saved_states Sample.engine /\
  saved (snd (render_element (E := Sample.engine) (Q := Sample.host)
                Sample.loaded (save Sample.painter) "foo" QRectF_null))
    = [state Sample.painter].
Proof.
  split; [exact sample_render_keeps_saved_states |].
  exact (proj2 (proj2
    (draw_balances_save_restore (E := Sample.engine) (Q := Sample.host)
       sample_render_keeps_saved_states Sample.loaded (save Sample.painter)
       "foo" QRectF_null))).
Defined.

Section DrawOnly.
Context {E : ResvgApi} {Q : QtHost}.

(** One draw: the private data stay, and the trace gains exactly one event
    (an engine call or the warning) when a document is owned, none
    otherwise. *)
Lemma draw_call_trace (s : State) (c : Call) :
  is_draw c = true ->
  exists s',
    call s c = Some s' /\ d s' = d s /\
    destroyed (trace s') = destroyed (trace s) /\
    deleted (trace s') = deleted (trace s) /\
    List.length (trace s') =
      (List.length (trace s) + if isValid s then 1 else 0)%nat.
Proof.
  intros Hdraw.
  destruct c as [filePath | data | p bounds | p id bounds];
    try discriminate; simpl; eexists; (split; [reflexivity |]).
  - split; [apply render_bounds_data |].
    unfold render_bounds, isValid. destruct (tree (d s)) as [t |]; simpl.
    + rewrite destroyed_app, deleted_app, List.length_app, !app_nil_r.
      repeat split.
    + rewrite Nat.add_0_r. repeat split.
  - split; [apply render_element_data |].
    unfold render_element, isValid. destruct (tree (d s)) as [t |]; simpl.
    + destruct (resvg_qt_get_node_bbox t (opt (d s)) (c_str id)); simpl;
        rewrite destroyed_app, deleted_app, List.length_app, !app_nil_r;
        repeat split.
    + rewrite Nat.add_0_r. repeat split.
Qed.

End DrawOnly.

(** X10.  Draw calls are read-only on the renderer: any sequence of them
    runs to the end, leaves the document, the options, the view box and the
    message as they were, releases nothing, and adds exactly one event per
    call (the engine call or the warning) when a document is owned, none
    when there is none. *)
Theorem draws_are_read_only `{E : ResvgApi} `{Q : QtHost}
    (calls : list Call) (s : State) :
  forallb is_draw calls = true ->
  exists s',
    run s calls = Some s' /\ d s' = d s /\
    destroyed (trace s') = destroyed (trace s) /\
    deleted (trace s') = deleted (trace s) /\
    List.length (trace s') =
      (List.length (trace s) + if isValid s then List.length calls else 0)%nat.
Proof.
  revert s. induction calls as [| c rest IH]; intros s; simpl.
  - intros _. exists s. repeat split. destruct (isValid s); simpl; lia.
  - intros Hall. apply andb_true_iff in Hall as [Hdraw Hrest].
    destruct (draw_call_trace s c Hdraw)
      as (s1 & Hcall & Hd1 & Hdes1 & Hdel1 & Hlen1).
    destruct (IH s1 Hrest) as (s' & Hrun & Hd & Hdes & Hdel & Hlen).
    exists s'. rewrite Hcall.
    split; [exact Hrun |]. split; [congruence |].
    split; [congruence |]. split; [congruence |].
    rewrite Hlen, Hlen1.
    assert (Hvalid : isValid s1 = isValid s) by (unfold isValid; rewrite Hd1; reflexivity).
    rewrite Hvalid. destruct (isValid s); lia.
Qed.

Lemma draws_are_read_only_witness :
  forallb is_draw
    [CallRender Sample.painter QRectF_null;
     CallRenderElement Sample.painter "bar" QRectF_null;
     CallRenderElement Sample.painter "foo" QRectF_null] = true /\
  exists s',
    run (E := Sample.engine) (Q := Sample.host) Sample.loaded
      [CallRender Sample.painter QRectF_null;
       CallRenderElement Sample.painter "bar" QRectF_null;
       CallRenderElement Sample.painter "foo" QRectF_null] = Some s' /\
    d s' = d Sample.loaded /\
    List.length (trace s') = 3%nat.
Proof.
  split; [reflexivity |].
  destruct (draws_are_read_only (E := Sample.engine) (Q := Sample.host)
              [CallRender Sample.painter QRectF_null;
               CallRenderElement Sample.painter "bar" QRectF_null;
               CallRenderElement Sample.painter "foo" QRectF_null]
              Sample.loaded eq_refl)
    as (s' & Hrun & Hd & _ & _ & Hlen).
  exists s'. split; [exact Hrun |]. split; [exact Hd | exact Hlen].
Defined.

(** ** Identifiers and paths as C strings *)

Lemma c_str_app_nul (s junk : string) :
  c_str (s ++ String Ascii.zero junk) = c_str s.
Proof.
  induction s as [| ch rest IH]; simpl; [reflexivity |].
  destruct (Ascii.eqb ch Ascii.zero); [reflexivity |].
  rewrite IH. reflexivity.
Qed.

(** X11.  Element ids reach the engine as C strings, so two ids with the
    same bytes before their first NUL cannot be told apart: the three
    element queries answer the same, and a draw by id makes the same engine
    call on the same painter (only the text of the warning names the id as
    given).  In particular a NUL and whatever follows it are ignored. *)
Theorem element_id_up_to_nul `{E : ResvgApi} `{Q : QtHost}
    (s : State) (p : QPainter) (bounds : QRectF) (id1 id2 : string) :
  c_str id1 = c_str id2 ->
  elementExists s id1 = elementExists s id2 /\
  boundsOnElement s id1 = boundsOnElement s id2 /\
  transformForElement s id1 = transformForElement s id2 /\
  snd (render_element s p id1 bounds) = snd (render_element s p id2 bounds) /\
  (forall t bbox,
     tree (d s) = Some t ->
     resvg_qt_get_node_bbox t (opt (d s)) (c_str id1) = Some bbox ->
     render_element s p id1 bounds = render_element s p id2 bounds).
Proof.
  intros Hsame.
  unfold elementExists, boundsOnElement, transformForElement, render_element.
  rewrite <- Hsame.
  destruct (tree (d s)) as [t |]; [| repeat split; reflexivity].
  split; [reflexivity |]. split; [reflexivity |]. split; [reflexivity |].
  split.
  - destruct (resvg_qt_get_node_bbox t (opt (d s)) (c_str id1)); reflexivity.
  - intros t' bbox [= <-] ->. reflexivity.
Qed.

Lemma element_id_up_to_nul_witness :
  c_str ("foo" ++ String Ascii.zero "bar") = c_str "foo" /\
  boundsOnElement (E := Sample.engine) Sample.loaded
    ("foo" ++ String Ascii.zero "bar") = mkQRectF 10 20 40 30 /\
  elementExists (E := Sample.engine) Sample.loaded
    ("foo" ++ String Ascii.zero "bar") = true.
Proof.
  destruct (element_id_up_to_nul (E := Sample.engine) (Q := Sample.host)
              Sample.loaded Sample.painter QRectF_null
              ("foo" ++ String Ascii.zero "bar") "foo"
              (c_str_app_nul "foo" "bar"))
    as (Hexists & Hbounds & _).
  split; [apply c_str_app_nul |].
  split; [exact Hbounds | exact Hexists].
Defined.

(** X12.  The message tells the code: two integers that the translator
    gives the same message are the same integer, so a caller can tell the
    engine's errors apart by [errorString] alone. *)
Theorem errorToString_injective `{E : ResvgApi} (c1 c2 : Z) (msg : string) :
  errorToString c1 = Some msg -> errorToString c2 = Some msg -> c1 = c2.
Proof.
  unfold errorToString.
  repeat match goal with
         | |- context [?u =? ?v] => destruct (Z.eqb_spec u v)
         end;
    intros H1 H2; try discriminate; try congruence.
Qed.

(** X14.  A file-system path reaches the engine, and becomes the base path,
    as a C string: two paths with the same bytes before their first NUL
    load alike, result and state. *)
Theorem file_path_up_to_nul `{E : ResvgApi} `{Q : QtHost}
    (s : State) (path1 path2 : string) :
  String.prefix ":/" path1 = false ->
  String.prefix ":/" path2 = false ->
  c_str path1 = c_str path2 ->
  load s path1 = load s path2 /\
  (forall ok s', load s path1 = Some (ok, s') ->
                 path (opt (d s')) = Some (c_str path2)).
Proof.
  intros Hprefix1 Hprefix2 Hsame.
  assert (Heq : load s path1 = load s path2).
  { unfold load. rewrite Hprefix1, Hprefix2, Hsame. reflexivity. }
  split; [exact Heq |].
  intros ok s' Hload. rewrite Heq in Hload.
  apply (load_path_inv s s' path2 ok Hprefix2 Hload).
Qed.

Lemma file_path_up_to_nul_witness :
  String.prefix ":/" ("/a.svg" ++ String Ascii.zero ".png") = false /\
  c_str ("/a.svg" ++ String Ascii.zero ".png") = c_str "/a.svg" /\
  load (E := Sample.engine) (Q := Sample.host)
    (ResvgRenderer_new (E := Sample.engine))
    ("/a.svg" ++ String Ascii.zero ".png") = Some (true, Sample.loaded).
Proof.
  split; [reflexivity |]. split; [apply c_str_app_nul |].
  rewrite (proj1 (file_path_up_to_nul (E := Sample.engine) (Q := Sample.host)
                    (ResvgRenderer_new (E := Sample.engine))
                    ("/a.svg" ++ String Ascii.zero ".png") "/a.svg"
                    eq_refl eq_refl (c_str_app_nul "/a.svg" ".png"))).
  reflexivity.
Defined.

(** X15.  Without a document every query answers its neutral value and
    every draw is a no-op: not valid, empty, the zero view box and bounds,
    no element, the identity transform, and a painter and a trace left as
    they were. *)
Theorem queries_without_document `{E : ResvgApi} `{Q : QtHost}
    (s : State) (p : QPainter) (id : string) (bounds : QRectF) :
  tree (d s) = None ->
  isValid s = false /\ isEmpty s = true /\
  viewBoxF s = QRectF_null /\
  boundsOnElement s id = QRectF_null /\
  elementExists s id = false /\
  transformForElement s id = QTransform_identity /\
  render s p = (s, p) /\
  render_bounds s p bounds = (s, p) /\
  render_element s p id bounds = (s, p).
Proof.
  intros Hnone.
  unfold isValid, isEmpty, viewBoxF, boundsOnElement, elementExists,
    transformForElement, render, render_bounds, render_element.
  rewrite Hnone. repeat split.
Qed.

Lemma queries_without_document_witness :
  tree (d Sample.failed) = None /\
  isEmpty (E := Sample.engine) Sample.failed = true /\
  render_element (E := Sample.engine) (Q := Sample.host) Sample.failed
    Sample.painter "foo" QRectF_null = (Sample.failed, Sample.painter).
Proof.
  split; [reflexivity |].
  destruct (queries_without_document (E := Sample.engine) (Q := Sample.host)
              Sample.failed Sample.painter "foo" QRectF_null eq_refl)
    as (_ & Hempty & _ & _ & _ & _ & _ & _ & Hdraw).
  split; [exact Hempty | exact Hdraw].
Defined.

Lemma errorToString_injective_witness :
  errorToString (E := Sample.engine) 2 = Some "Failed to open the file."%string /\
  errorToString (E := Sample.engine) (1 + 1) = Some "Failed to open the file."%string /\
  2 = 1 + 1.
Proof.
  split; [reflexivity |]. split; [reflexivity |].
  exact (errorToString_injective (E := Sample.engine) 2 (1 + 1)
           "Failed to open the file." eq_refl eq_refl).
Defined.
